(** * The local nutrition diary data layer (db/actions/diaryActions.ts)

    A shallow embedding of [searchFoods], [logFoodToDiary] and
    [observeDiaryEntriesForDate], together with the part of the storage
    engine's query-and-write vocabulary that these three actions call
    (query clauses, fetch, the write block with a record builder, and live
    queries).

    Conventions.
    - A JS string is a [string], a sequence of code units.  The
      [toLowerCase] of the language is Unicode-aware and is not computed
      here: it is a parameter ([Unicode.Casing]) of which three laws are
      used; on strings of ASCII characters it is [JS.toLowerCase].  LIKE
      folds the case of ASCII letters only.
    - A JS number is a binary64 [float]; [*] is IEEE multiplication.  A
      number assigned to a column is stored as the engine's setter stores
      it ([stored_number]).
    - An [async] function is a function of the store that yields an
      [Outcome] (resolved or rejected) and the store after the call.
    - [console.log] has no effect on the store and is left out. *)

From Stdlib Require Import Bool List Arith Lia Ascii String Floats Permutation.
Import ListNotations.

Set Warnings "-inexact-float,-register-all".

Local Open Scope string_scope.
Local Open Scope list_scope.
Local Open Scope bool_scope.

(* ================================================================== *)
(** ** JavaScript string primitives used by the actions *)

Module JS.

(** [c.toLowerCase()] on one code unit: 'A'..'Z' go to 'a'..'z'. *)
Definition lower_ascii (c : ascii) : ascii :=
  let n := nat_of_ascii c in
  if ((65 <=? n)%nat && (n <=? 90)%nat) then ascii_of_nat (n + 32) else c.

(** [s.toLowerCase()] for a string of ASCII characters; on any string, the
    case folding that LIKE applies. *)
Fixpoint toLowerCase (s : string) : string :=
  match s with
  | EmptyString => EmptyString
  | String c s' => String (lower_ascii c) (toLowerCase s')
  end.

(** [s.split(sep)] for a one-character separator: every piece between two
    separators is kept, empty pieces included; [("").split(sep)] is [[""]]. *)
Fixpoint split (sep : ascii) (s : string) : list string :=
  match s with
  | EmptyString => [EmptyString]
  | String c s' =>
      if Ascii.eqb c sep then EmptyString :: split sep s'
      else match split sep s' with
           | [] => [String c EmptyString]
           | w :: ws => String c w :: ws
           end
  end.

(** Truthiness of a string: only [""] is falsy. *)
Definition truthy (s : string) : bool :=
  match s with
  | EmptyString => false
  | String _ _ => true
  end.

(** The code unit is an ASCII character. *)
Definition is_ascii (c : ascii) : bool := (nat_of_ascii c <? 128)%nat.

Fixpoint ascii_only (s : string) : bool :=
  match s with
  | EmptyString => true
  | String c s' => is_ascii c && ascii_only s'
  end.

End JS.

(** [String.prototype.toLowerCase] on arbitrary strings.  It follows the
    Unicode case mappings, which are not reproduced here; the development
    uses three facts about it: on ASCII strings it lowers the letters A to
    Z and nothing else, it maps the two sides of a space separately, and it
    yields the empty string for the empty string only. *)
Module Unicode.

Class Casing : Type := {
  toLowerCase : string -> string;
  toLowerCase_ascii :
    forall s, JS.ascii_only s = true -> toLowerCase s = JS.toLowerCase s;
  toLowerCase_space :
    forall a b,
      toLowerCase (a ++ String " " b)
      = (toLowerCase a ++ String " " (toLowerCase b))%string;
  toLowerCase_nonempty :
    forall s, toLowerCase s = EmptyString -> s = EmptyString
}.

End Unicode.

(* ================================================================== *)
(** ** Query descriptions ([Q] of the storage engine) *)

(** A column holds a string or a number. *)
Inductive Value : Type :=
| VString (s : string)
| VNumber (x : float).

Module Q.

Inductive Comparison : Type :=
| Eq (v : Value)            (* Q.where(col, v) is Q.where(col, Q.eq(v)) *)
| Like (pattern : string).  (* Q.like(pattern) *)

Inductive Clause : Type :=
| Where (column : string) (c : Comparison)
| And (conditions : list Clause).

(** LIKE compares letters without regard to ASCII case. *)
Definition char_eqb (p c : ascii) : bool :=
  Ascii.eqb (JS.lower_ascii p) (JS.lower_ascii c).

(** [like pattern s]: the engine's LIKE operator, with the meaning it has in
    SQL.  ['%'] stands for any run of
    characters (the empty one too), ['_'] for exactly one character, any other
    pattern character for itself up to case.  There is no escape
    character. *)
Fixpoint like (pattern : string) (s : string) {struct pattern} : bool :=
  match pattern with
  | EmptyString =>
      match s with
      | EmptyString => true
      | String _ _ => false
      end
  | String p pattern' =>
      if Ascii.eqb p "%"
      then (fix any (t : string) : bool :=
              like pattern' t
              || match t with
                 | EmptyString => false
                 | String _ t' => any t'
                 end) s
      else match s with
           | EmptyString => false
           | String c s' =>
               (Ascii.eqb p "_" || char_eqb p c) && like pattern' s'
           end
  end.

Definition value_eqb (a b : Value) : bool :=
  match a, b with
  | VString s, VString t => String.eqb s t
  | VNumber x, VNumber y => PrimFloat.eqb x y
  | _, _ => false
  end.

(** A comparison applied to the content of a column; a column that the
    table does not have compares false. *)
Definition compare (c : Comparison) (v : option Value) : bool :=
  match c, v with
  | Eq x, Some y => value_eqb y x
  | Like p, Some (VString s) => like p s
  | _, _ => false
  end.

End Q.

(** What the engine needs to know of a model class: its identity and its
    columns by name. *)
Class Model (R : Type) : Type := {
  model_id : R -> string;
  column : string -> R -> option Value
}.

Section Collections.

Context {R : Type} `{Model R}.

(** Does record [r] satisfy the clause?  [Q.and] is the conjunction of its
    conditions; of no condition, it holds.  That is how the engine matches
    records in memory; its SQL adapter does not accept a conjunction of no
    condition, so what is proved of the records found is proved of queries
    that have a search word, or as an equality between two searches. *)
Fixpoint matches (r : R) (cl : Q.Clause) {struct cl} : bool :=
  match cl with
  | Q.Where col c => Q.compare c (column col r)
  | Q.And conditions => forallb (matches r) conditions
  end.

(** [collection.query(...clauses)]: all the clauses must hold. *)
Definition satisfies (clauses : list Q.Clause) (r : R) : bool :=
  forallb (matches r) clauses.

(** [collection.query(...clauses).fetch()]: the matching records, in the
    collection's order. *)
Definition fetch (clauses : list Q.Clause) (collection : list R) : list R :=
  filter (satisfies clauses) collection.

End Collections.

(* ================================================================== *)
(** ** The models *)

Module Food.

(** Modelled from the spec: the [Food] model class (db/models/Food) is not
    part of the sources; section 3 gives a FoodRecord an id, a name and four
    per-serving nutrient numbers. *)
Record t : Type := mk {
  id : string;
  name : string;
  calories : float;
  protein_g : float;
  carbs_g : float;
  fat_g : float
}.

Definition column (col : string) (f : t) : option Value :=
  if String.eqb col "name" then Some (VString (name f))
  else if String.eqb col "calories" then Some (VNumber (calories f))
  else if String.eqb col "protein_g" then Some (VNumber (protein_g f))
  else if String.eqb col "carbs_g" then Some (VNumber (carbs_g f))
  else if String.eqb col "fat_g" then Some (VNumber (fat_g f))
  else None.

End Food.

#[export] Instance Food_Model : Model Food.t :=
  {| model_id := Food.id; column := Food.column |}.

Inductive MealType : Type := breakfast | lunch | dinner | snacks.

(** The string a meal type is at run time. *)
Definition mealType_string (m : MealType) : string :=
  match m with
  | breakfast => "breakfast"
  | lunch => "lunch"
  | dinner => "dinner"
  | snacks => "snacks"
  end.

Module DiaryEntry.

(** Modelled from the spec: the [DiaryEntry] model class (db/models/DiaryEntry)
    is not part of the sources; section 3 lists its fields.  The stored meal
    type is the column's string. *)
Record t : Type := mk {
  id : string;
  userId : string;
  foodId : string;
  date : string;
  mealType : string;
  servings : float;
  calories : float;
  protein_g : float;
  carbs_g : float;
  fat_g : float
}.

(** What the engine's setter of a number column keeps of an assigned
    number: the number itself when it is finite and not zero, and 0 for a
    zero of either sign, for NaN and for the two infinities. *)
Definition stored_number (x : float) : float :=
  if ((x =? x) && negb (x =? infinity) && negb (x =? neg_infinity))%float
  then (if (x =? 0)%float then 0%float else x)
  else 0%float.

(** The record a builder starts from: the new identity, every string column
    empty and every number column zero. *)
Definition raw (new_id : string) : t :=
  mk new_id "" "" "" "" 0 0 0 0 0.

(** Field assignments ([entry.field = v]); a number goes through
    [stored_number]. *)
Definition set_userId (v : string) (e : t) : t :=
  mk (id e) v (foodId e) (date e) (mealType e) (servings e)
     (calories e) (protein_g e) (carbs_g e) (fat_g e).
Definition set_foodId (v : string) (e : t) : t :=
  mk (id e) (userId e) v (date e) (mealType e) (servings e)
     (calories e) (protein_g e) (carbs_g e) (fat_g e).
Definition set_date (v : string) (e : t) : t :=
  mk (id e) (userId e) (foodId e) v (mealType e) (servings e)
     (calories e) (protein_g e) (carbs_g e) (fat_g e).
Definition set_mealType (v : string) (e : t) : t :=
  mk (id e) (userId e) (foodId e) (date e) v (servings e)
     (calories e) (protein_g e) (carbs_g e) (fat_g e).
Definition set_servings (v : float) (e : t) : t :=
  mk (id e) (userId e) (foodId e) (date e) (mealType e) (stored_number v)
     (calories e) (protein_g e) (carbs_g e) (fat_g e).
Definition set_calories (v : float) (e : t) : t :=
  mk (id e) (userId e) (foodId e) (date e) (mealType e) (servings e)
     (stored_number v) (protein_g e) (carbs_g e) (fat_g e).
Definition set_protein_g (v : float) (e : t) : t :=
  mk (id e) (userId e) (foodId e) (date e) (mealType e) (servings e)
     (calories e) (stored_number v) (carbs_g e) (fat_g e).
Definition set_carbs_g (v : float) (e : t) : t :=
  mk (id e) (userId e) (foodId e) (date e) (mealType e) (servings e)
     (calories e) (protein_g e) (stored_number v) (fat_g e).
Definition set_fat_g (v : float) (e : t) : t :=
  mk (id e) (userId e) (foodId e) (date e) (mealType e) (servings e)
     (calories e) (protein_g e) (carbs_g e) (stored_number v).

Definition column (col : string) (e : t) : option Value :=
  if String.eqb col "user_id" then Some (VString (userId e))
  else if String.eqb col "food_id" then Some (VString (foodId e))
  else if String.eqb col "date" then Some (VString (date e))
  else if String.eqb col "meal_type" then Some (VString (mealType e))
  else if String.eqb col "servings" then Some (VNumber (servings e))
  else if String.eqb col "calories" then Some (VNumber (calories e))
  else if String.eqb col "protein_g" then Some (VNumber (protein_g e))
  else if String.eqb col "carbs_g" then Some (VNumber (carbs_g e))
  else if String.eqb col "fat_g" then Some (VNumber (fat_g e))
  else None.

End DiaryEntry.

#[export] Instance DiaryEntry_Model : Model DiaryEntry.t :=
  {| model_id := DiaryEntry.id; column := DiaryEntry.column |}.

(* ================================================================== *)
(** ** The store *)

(** Modelled from the spec: the error kinds of section 7. *)
Inductive Error : Type := InvalidInput | StoreUnavailable | WriteFailed.

(** How a promise settles. *)
Inductive Outcome (A : Type) : Type :=
| Resolved (a : A)
| Rejected (e : Error).

Arguments Resolved {A} a.
Arguments Rejected {A} e.

(** An active subscription to a live query of [diary_entries]: the query it
    watches and the snapshots delivered to it so far, oldest first. *)
Record Subscriber : Type := {
  watching : list Q.Clause;
  received : list (list DiaryEntry.t)
}.

(** Modelled from the spec: the [database] object (db/index) is not part of
    the sources.  Section 6 gives it two collections, [foods] and
    [diary_entries], and live subscriptions to query results. *)
Record Database : Type := {
  foods : list Food.t;
  diary_entries : list DiaryEntry.t;
  observers : list Subscriber
}.

(** Modelled from the spec: what the surroundings contribute to one write,
    namely the identity the engine generates for the new record, and
    whether and where the write fails (section 8, P5).  The steps of a
    write block that creates a record with a builder of [n] assignments are
    numbered [0 .. n-1] for the assignments and [n] for the commit. *)
Inductive Fault : Type := NoFault | FailAt (step : nat).

Record Env : Type := {
  new_id : string;
  fault : Fault
}.

Definition trips (f : Fault) (step : nat) : bool :=
  match f with
  | NoFault => false
  | FailAt k => Nat.eqb k step
  end.

(** Modelled from the spec: after a commit, every subscription whose query
    matches an affected record re-runs its query on the store as committed
    and receives the complete result (section 9, first design note). *)
Definition notify (affected entries' : list DiaryEntry.t) (s : Subscriber)
  : Subscriber :=
  if existsb (satisfies (watching s)) affected
  then {| watching := watching s;
          received := received s ++ [fetch (watching s) entries'] |}
  else s.

(** Modelled from the spec: a commit replaces the diary collection and then
    notifies the subscribers (section 9). *)
Definition commit (affected entries' : list DiaryEntry.t) (db : Database)
  : Database :=
  {| foods := foods db;
     diary_entries := entries';
     observers := map (notify affected entries') (observers db) |}.

(** Modelled from the spec: the builder runs on the record being prepared,
    one assignment after the other; the record is not in the store while it
    runs (section 4.2, no partial record is observable). *)
Fixpoint run_builder (builder : list (DiaryEntry.t -> DiaryEntry.t))
  (f : Fault) (step : nat) (pending : DiaryEntry.t) : option DiaryEntry.t :=
  match builder with
  | [] => Some pending
  | assign :: rest =>
      if trips f step then None
      else run_builder rest f (S step) (assign pending)
  end.

(** Modelled from the spec: [diaryEntriesCollection.create(builder)] is the
    engine's; it prepares a record with a new identity, runs the builder on
    it, and commits it as one batch, which is all-or-nothing
    (section 6 (c)). *)
Definition create (builder : list (DiaryEntry.t -> DiaryEntry.t))
  (env : Env) (db : Database) : Outcome DiaryEntry.t * Database :=
  match run_builder builder (fault env) 0 (DiaryEntry.raw (new_id env)) with
  | None => (Rejected WriteFailed, db)
  | Some record =>
      if trips (fault env) (List.length builder)
      then (Rejected WriteFailed, db)
      else (Resolved record,
            commit [record] (diary_entries db ++ [record]) db)
  end.

(** Modelled from the spec: [database.write(work)] is the engine's scoped
    write block (section 6 (c)); the work runs as the only writer, and what
    it settles to is what the write settles to. *)
Definition write {A : Type} (work : Env -> Database -> Outcome A * Database)
  (env : Env) (db : Database) : Outcome A * Database :=
  work env db.

Definition has_id (i : string) (e : DiaryEntry.t) : bool :=
  String.eqb (DiaryEntry.id e) i.

(** Modelled from the spec: the collection also supports updating and
    deleting records (section 3); the actions never call these. *)
Definition update_entry (i : string) (change : DiaryEntry.t -> DiaryEntry.t)
  (db : Database) : Database :=
  let olds := filter (has_id i) (diary_entries db) in
  commit (olds ++ map change olds)
         (map (fun e => if has_id i e then change e else e) (diary_entries db))
         db.

(** Modelled from the spec: deletion of the records with identity [i]. *)
Definition destroy_entry (i : string) (db : Database) : Database :=
  commit (filter (has_id i) (diary_entries db))
         (filter (fun e => negb (has_id i e)) (diary_entries db))
         db.

(** Modelled from the spec: a change to a catalog record (the catalog is
    seeded and maintained outside the actions). *)
Definition update_food (i : string) (change : Food.t -> Food.t)
  (db : Database) : Database :=
  {| foods := map (fun f => if String.eqb (Food.id f) i then change f else f)
                  (foods db);
     diary_entries := diary_entries db;
     observers := observers db |}.

(** A live query is cold: it is a description until someone subscribes. *)
Definition Observable : Type := list Q.Clause.

(** [collection.query(...clauses).observe()] *)
Definition observe (clauses : list Q.Clause) : Observable := clauses.

(** Modelled from the spec: subscribing delivers the current result at once
    (section 4.3). *)
Definition subscribe (o : Observable) (db : Database) : Database :=
  {| foods := foods db;
     diary_entries := diary_entries db;
     observers := observers db
                  ++ [{| watching := o;
                         received := [fetch o (diary_entries db)] |}] |}.

(* ================================================================== *)
(** ** The actions (db/actions/diaryActions.ts) *)

(** [query.toLowerCase().split(" ").filter((w) => w)] *)
Definition searchWords `{Unicode.Casing} (query : string) : list string :=
  filter JS.truthy (JS.split " " (Unicode.toLowerCase query)).

(** [searchFoods(query)] *)
Definition searchFoods `{Unicode.Casing} (query : string) (db : Database)
  : Outcome (list Food.t) :=
  if negb (JS.truthy query) then Resolved []
  else
    let foodResults :=
      fetch [Q.And (map (fun word =>
                           Q.Where "name" (Q.Like ("%" ++ word ++ "%")%string))
                        (searchWords query))]
            (foods db) in
    Resolved foodResults.

(** The list a search resolved to (nothing when it was rejected). *)
Definition found {A : Type} (o : Outcome (list A)) : list A :=
  match o with
  | Resolved l => l
  | Rejected _ => []
  end.

Record Options : Type := {
  userId : string;
  food : Food.t;
  date : string;
  mealType : MealType;
  servings : float
}.

(** What a call resolves to: [undefined], or a diary entry object. *)
Inductive JsValue : Type :=
| undefined
| entry_object (e : DiaryEntry.t).

(** The builder passed to [create], assignment by assignment. *)
Definition entry_builder (options : Options)
  : list (DiaryEntry.t -> DiaryEntry.t) :=
  [ DiaryEntry.set_userId (userId options);
    DiaryEntry.set_foodId (Food.id (food options));
    DiaryEntry.set_date (date options);
    DiaryEntry.set_mealType (mealType_string (mealType options));
    DiaryEntry.set_servings (servings options);
    DiaryEntry.set_calories
      (Food.calories (food options) * servings options)%float;
    DiaryEntry.set_protein_g
      (Food.protein_g (food options) * servings options)%float;
    DiaryEntry.set_carbs_g
      (Food.carbs_g (food options) * servings options)%float;
    DiaryEntry.set_fat_g
      (Food.fat_g (food options) * servings options)%float ].

(** [logFoodToDiary(options)]: the result of the write is awaited and
    dropped; the function has no [return]. *)
Definition logFoodToDiary (options : Options) (env : Env) (db : Database)
  : Outcome JsValue * Database :=
  match write (create (entry_builder options)) env db with
  | (Rejected e, db') => (Rejected e, db')
  | (Resolved _, db') => (Resolved undefined, db')
  end.

(** [observeDiaryEntriesForDate(date)] *)
Definition observeDiaryEntriesForDate (date : string) : Observable :=
  observe [Q.Where "date" (Q.Eq (VString date))].

(** The record that the builder of [logFoodToDiary] leaves when all of its
    assignments have run. *)
Definition new_entry (options : Options) (env : Env) : DiaryEntry.t :=
  DiaryEntry.mk (new_id env) (userId options) (Food.id (food options))
    (date options) (mealType_string (mealType options))
    (DiaryEntry.stored_number (servings options))
    (DiaryEntry.stored_number
       (Food.calories (food options) * servings options)%float)
    (DiaryEntry.stored_number
       (Food.protein_g (food options) * servings options)%float)
    (DiaryEntry.stored_number
       (Food.carbs_g (food options) * servings options)%float)
    (DiaryEntry.stored_number
       (Food.fat_g (food options) * servings options)%float).

(** The write of [logFoodToDiary] has steps 0 to 9 (nine assignments and the
    commit); it goes through when none of them fails. *)
Definition write_succeeds (env : Env) : bool :=
  match fault env with
  | NoFault => true
  | FailAt k => (9 <? k)%nat
  end.

(* ================================================================== *)
(** ** Histories of the store *)

(** One event in the life of the store. *)
Inductive Op : Type :=
| Subscribe (d : string)       (* subscribe to observeDiaryEntriesForDate(d) *)
| Log (options : Options) (env : Env)               (* logFoodToDiary(options) *)
| UpdateEntry (i : string) (change : DiaryEntry.t -> DiaryEntry.t)
| DestroyEntry (i : string)
| UpdateFood (i : string) (change : Food.t -> Food.t).

Definition step (db : Database) (op : Op) : Database :=
  match op with
  | Subscribe d => subscribe (observeDiaryEntriesForDate d) db
  | Log options env => snd (logFoodToDiary options env db)
  | UpdateEntry i change => update_entry i change db
  | DestroyEntry i => destroy_entry i db
  | UpdateFood i change => update_food i change db
  end.

Definition run (ops : list Op) (db : Database) : Database :=
  fold_left step ops db.

(** Events that neither change nor delete a diary entry: subscriptions,
    further logFoodToDiary calls, catalog changes. *)
Definition keeps_entries (op : Op) : bool :=
  match op with
  | UpdateEntry _ _ | DestroyEntry _ => false
  | _ => true
  end.

(** Events that touch the catalog only. *)
Definition catalog_only (op : Op) : bool :=
  match op with
  | UpdateFood _ _ => true
  | _ => false
  end.

(** The diary records an event creates, changes or deletes: for a change,
    the records as they were and as they become. *)
Definition affected_by (op : Op) (db : Database) : list DiaryEntry.t :=
  match op with
  | Subscribe _ => []
  | Log options env =>
      if write_succeeds env then [new_entry options env] else []
  | UpdateEntry i change =>
      filter (has_id i) (diary_entries db)
      ++ map change (filter (has_id i) (diary_entries db))
  | DestroyEntry i => filter (has_id i) (diary_entries db)
  | UpdateFood _ _ => []
  end.

(** The subscribers an event adds. *)
Definition joining (op : Op) (db : Database) : list Subscriber :=
  match op with
  | Subscribe d =>
      [{| watching := observeDiaryEntriesForDate d;
          received := [fetch (observeDiaryEntriesForDate d)
                             (diary_entries db)] |}]
  | _ => []
  end.

(** Every snapshot a subscriber of a date query has received holds entries of
    that date only. *)
Definition exact_for_date (s : Subscriber) : Prop :=
  exists d, watching s = observeDiaryEntriesForDate d
            /\ forall snap e, In snap (received s) -> In e snap ->
                              DiaryEntry.date e = d.

(** The entries of a collection that carry date [d]. *)
Definition on_date (d : string) (entries : list DiaryEntry.t)
  : list DiaryEntry.t :=
  filter (fun e => String.eqb (DiaryEntry.date e) d) entries.

(* ================================================================== *)
(** ** The specification's vocabulary *)

Module Spec.

(** White space: space, tab, line feed, vertical tab, form feed, carriage
    return. *)
Definition is_whitespace (c : ascii) : bool :=
  let n := nat_of_ascii c in
  Nat.eqb n 32 || ((9 <=? n)%nat && (n <=? 13)%nat).

(** A query that is empty after trimming. *)
Fixpoint blank (q : string) : bool :=
  match q with
  | EmptyString => true
  | String c q' => is_whitespace c && blank q'
  end.

(** The pieces of [s] between white space, empty pieces included. *)
Fixpoint pieces (s : string) : list string :=
  match s with
  | EmptyString => [EmptyString]
  | String c s' =>
      if is_whitespace c then EmptyString :: pieces s'
      else match pieces s' with
           | [] => [String c EmptyString]
           | w :: ws => String c w :: ws
           end
  end.

(** The non-empty tokens of the lowercased query. *)
Definition tokens `{Unicode.Casing} (q : string) : list string :=
  filter JS.truthy (pieces (Unicode.toLowerCase q)).

(** [w] is how [s] starts. *)
Fixpoint is_prefix (w s : string) : bool :=
  match w, s with
  | EmptyString, _ => true
  | String _ _, EmptyString => false
  | String a w', String b s' => Ascii.eqb a b && is_prefix w' s'
  end.

(** [w] occurs in [s] as a substring. *)
Fixpoint is_substring (w s : string) : bool :=
  is_prefix w s
  || match s with
     | EmptyString => false
     | String _ s' => is_substring w s'
     end.

(** The name contains the token, the case of ASCII letters apart. *)
Definition contains_ci (name token : string) : bool :=
  is_substring (JS.toLowerCase token) (JS.toLowerCase name).

(** The name contains every token of the query. *)
Definition name_matches `{Unicode.Casing} (q : string) (f : Food.t) : bool :=
  forallb (contains_ci (Food.name f)) (tokens q).

(** The search of section 4.1. *)
Definition search `{Unicode.Casing} (q : string) (catalog : list Food.t)
  : list Food.t :=
  filter (name_matches q) catalog.

(** No LIKE metacharacter (['%'], ['_']) occurs in the string. *)
Fixpoint wildcard_free (s : string) : bool :=
  match s with
  | EmptyString => true
  | String c s' =>
      negb (Ascii.eqb c "%") && negb (Ascii.eqb c "_") && wildcard_free s'
  end.

(** Character [c] occurs in the string. *)
Fixpoint occurs (c : ascii) (s : string) : bool :=
  match s with
  | EmptyString => false
  | String a s' => Ascii.eqb a c || occurs c s'
  end.

(** The only white space in the string is the space character. *)
Fixpoint plain_spaces (s : string) : bool :=
  match s with
  | EmptyString => true
  | String c s' =>
      (negb (is_whitespace c) || Ascii.eqb c " ") && plain_spaces s'
  end.

(** A run of [n] space characters. *)
Fixpoint spaces (n : nat) : string :=
  match n with
  | O => EmptyString
  | S n' => String " " (spaces n')
  end.

(** No white space occurs in the string. *)
Fixpoint no_whitespace (s : string) : bool :=
  match s with
  | EmptyString => true
  | String c s' => negb (is_whitespace c) && no_whitespace s'
  end.

(** A word without LIKE metacharacter and without white space. *)
Definition plain_word (w : string) : bool :=
  wildcard_free w && no_whitespace w.

(** No space occurs in the string. *)
Fixpoint space_free (s : string) : bool :=
  match s with
  | EmptyString => true
  | String c s' => negb (Ascii.eqb c " ") && space_free s'
  end.

(** A finite number: not NaN and not an infinity. *)
Definition finite (x : float) : bool :=
  ((x =? x) && negb (x =? infinity) && negb (x =? neg_infinity))%float.

(** The column holds the number [x] as far as a column can: [x] itself when
    it is finite and not zero, 0 when it is a zero, NaN or an infinity. *)
Definition holds (column x : float) : Prop :=
  (finite x = true -> (x =? 0)%float = false -> column = x)
  /\ (finite x = true -> (x =? 0)%float = true -> column = 0%float)
  /\ (finite x = false -> column = 0%float).

(** A positive finite number. *)
Definition positive_finite (x : float) : bool :=
  ((0 <? x) && (x <? infinity))%float.

Definition is_digit (c : ascii) : bool :=
  let n := nat_of_ascii c in (48 <=? n)%nat && (n <=? 57)%nat.

(** A date string of the form YYYY-MM-DD. *)
Definition well_formed_date (d : string) : bool :=
  match list_ascii_of_string d with
  | [y1; y2; y3; y4; h1; m1; m2; h2; d1; d2] =>
      forallb is_digit [y1; y2; y3; y4; m1; m2; d1; d2]
      && Ascii.eqb h1 "-" && Ascii.eqb h2 "-"
  | _ => false
  end.

(** The preconditions of section 4.2 on a call of logFoodToDiary; the meal
    type is one of the four values by its type. *)
Definition valid_input (options : Options) : bool :=
  positive_finite (servings options) && well_formed_date (date options).

End Spec.

(* ================================================================== *)
(** ** Sample data *)

Module Sample.

Definition chicken : Food.t :=
  Food.mk "f1" "Grilled Chicken Breast" 165 31 0 3.6.

Definition salmon : Food.t :=
  Food.mk "f2" "Baked Salmon" 208 20 0 13.

Definition catalog : list Food.t := [chicken; salmon].

Definition empty_db : Database :=
  {| foods := catalog; diary_entries := []; observers := [] |}.

Definition env1 : Env := {| new_id := "e1"; fault := NoFault |}.
Definition env2 : Env := {| new_id := "e2"; fault := NoFault |}.

Definition two_servings : Options :=
  {| userId := "u1"; food := chicken; date := "2024-01-15";
     mealType := lunch; servings := 2 |}.

Definition next_day : Options :=
  {| userId := "u1"; food := salmon; date := "2024-01-16";
     mealType := dinner; servings := 1 |}.

(** The store with one subscriber, watching 2024-01-15. *)
Definition watcher : Subscriber :=
  {| watching := observeDiaryEntriesForDate "2024-01-15";
     received := [[]] |}.

Definition watched_db : Database :=
  subscribe (observeDiaryEntriesForDate "2024-01-15") empty_db.

(** A later correction of a catalog record's calories. *)
Definition recalibrate (f : Food.t) : Food.t :=
  Food.mk (Food.id f) (Food.name f) 999 (Food.protein_g f) (Food.carbs_g f)
    (Food.fat_g f).

Definition tab : ascii := "009".

(** "chicken", a tab, "breast". *)
Definition tabbed_query : string := ("chicken" ++ String tab "breast")%string.

Definition bad_call : Options :=
  {| userId := "u1"; food := chicken; date := "2024-01-5";
     mealType := lunch; servings := (-1) |}.

(** Servings that are finite and positive, and too many. *)
Definition huge_call : Options :=
  {| userId := "u1"; food := chicken; date := "2024-01-15";
     mealType := lunch; servings := 1e308 |}.

Definition nan_call : Options :=
  {| userId := "u1"; food := chicken; date := "2024-01-15";
     mealType := lunch; servings := nan |}.

Definition infinite_call : Options :=
  {| userId := "u1"; food := chicken; date := "2024-01-15";
     mealType := lunch; servings := infinity |}.

End Sample.

(* ================================================================== *)
(** ** Further vocabulary for the diary actions *)

(** A batch of [logFoodToDiary] calls, each with what its surroundings
    contribute, as a history. *)
Definition log_all (calls : list (Options * Env)) : list Op :=
  map (fun call => Log (fst call) (snd call)) calls.

(** The entries a batch of calls leaves: one for each call whose write goes
    through, in call order. *)
Definition logged (calls : list (Options * Env)) : list DiaryEntry.t :=
  map (fun call => new_entry (fst call) (snd call))
      (filter (fun call => write_succeeds (snd call)) calls).

(** The newest snapshot a subscriber holds is what its query matches in the
    store now. *)
Definition up_to_date (db : Database) (s : Subscriber) : Prop :=
  last (received s) [] = fetch (watching s) (diary_entries db).

(** The query has a search word. *)
Definition has_word `{Unicode.Casing} (q : string) : bool :=
  match searchWords q with
  | [] => false
  | _ :: _ => true
  end.

(** Every search word of the query is free of LIKE metacharacters and of
    white space. *)
Definition plain_words `{Unicode.Casing} (q : string) : bool :=
  forallb Spec.plain_word (searchWords q).

(** Every character of the string is ['%'] or a space. *)
Fixpoint percents_and_spaces (s : string) : bool :=
  match s with
  | EmptyString => true
  | String c s' =>
      (Ascii.eqb c "%" || Ascii.eqb c " ") && percents_and_spaces s'
  end.

(** Every character of the string is ['%']. *)
Fixpoint percents (s : string) : bool :=
  match s with
  | EmptyString => true
  | String c s' => Ascii.eqb c "%" && percents s'
  end.

(* ================================================================== *)
(** ** The root layout (app/_layout.tsx): start-up *)

Module RootLayout.

(** What the component uses of the application store ([useAppStore] of
    stores/appStore, which is not part of the sources): the three fields
    it reads and the three setters it calls. *)
Record AppStore : Type := {
  Store : Type;
  User : Type;
  isLoading : Store -> bool;
  isAuthenticated : Store -> bool;
  onboardingComplete : Store -> bool;
  setLoading : bool -> Store -> Store;
  setCurrentUser : option User -> Store -> Store;
  setOnboardingComplete : bool -> Store -> Store
}.

(** What is asked of the store's setters: a setter sets the field it names,
    and the onboarding flag is changed by its own setter only. *)
Record SetterLaws (A : AppStore) : Prop := {
  loading_set :
    forall b s, isLoading A (setLoading A b s) = b;
  onboarding_set :
    forall b s, onboardingComplete A (setOnboardingComplete A b s) = b;
  onboarding_setLoading :
    forall b s, onboardingComplete A (setLoading A b s)
                = onboardingComplete A s;
  onboarding_setCurrentUser :
    forall u s, onboardingComplete A (setCurrentUser A u s)
                = onboardingComplete A s
}.

(** The state a render of the component sees: the store, the two results of
    [useFonts] ([fontError] is an error object or null, here its
    truthiness), and the local [appInitialized]. *)
Record Screen (A : AppStore) : Type := {
  store : Store A;
  fontsLoaded : bool;
  fontError : bool;
  appInitialized : bool
}.

Arguments store {A} _.
Arguments fontsLoaded {A} _.
Arguments fontError {A} _.
Arguments appInitialized {A} _.

(** How an awaited call ends. *)
Inductive Settled (T : Type) : Type :=
| Fulfilled (v : T)
| Thrown.

Arguments Fulfilled {T} v.
Arguments Thrown {T}.

Section Component.

Context {A : AppStore}.

(** The condition under which the first effect starts [initializeApp]:
    [(fontsLoaded || fontError) && !appInitialized]. *)
Definition should_initialize (v : Screen A) : bool :=
  (fontsLoaded v || fontError v) && negb (appInitialized v).

(** The early return of the navigation effect:
    [!appInitialized || (!fontsLoaded && !fontError) || isLoading]. *)
Definition navigation_waits (v : Screen A) : bool :=
  negb (appInitialized v)
  || (negb (fontsLoaded v) && negb (fontError v))
  || isLoading A (store v).

(** Where the navigation effect sends the router. *)
Definition destination (v : Screen A) : string :=
  if isAuthenticated A (store v) && onboardingComplete A (store v)
  then "/(tabs)"
  else if isAuthenticated A (store v) && negb (onboardingComplete A (store v))
       then "/onboarding"
       else "/(auth)/CreateProfileScreen".

(** The condition under which [onLayoutRootView] hides the splash screen:
    [(fontsLoaded || fontError) && appInitialized && !isLoading]. *)
Definition hides_splash (v : Screen A) : bool :=
  (fontsLoaded v || fontError v) && appInitialized v
  && negb (isLoading A (store v)).

(** [showLoading]:
    [!appInitialized || (!fontsLoaded && !fontError) || isLoading]. *)
Definition showLoading (v : Screen A) : bool :=
  negb (appInitialized v)
  || (negb (fontsLoaded v) && negb (fontError v))
  || isLoading A (store v).

(** The text of the loading overlay. *)
Definition loading_message (v : Screen A) : string :=
  if fontError v then "Font loading failed, continuing..."
  else if negb (fontsLoaded v) then "Loading fonts..."
       else if negb (appInitialized v) then "Initializing app..."
            else "Starting FitNext...".

Definition is_some {T : Type} (o : option T) : bool :=
  match o with
  | Some _ => true
  | None => false
  end.

(** [initializeApp()].  [seeding] is how [seedFoodDatabase()] ends (a throw
    is caught and only logged), [lookup] how [getActiveUser()] ends.  The
    [onboardingComplete] that the body tests is the one the render saw.
    The [catch] resets the user and the onboarding flag; the [finally]
    clears the loading flag and sets [appInitialized]. *)
Definition initializeApp (seeding : Settled unit)
  (lookup : Settled (option (User A))) (v : Screen A) : Screen A :=
  let s1 := setLoading A true (store v) in
  let s2 :=
    match lookup with
    | Fulfilled user =>
        let s := setCurrentUser A user s1 in
        if is_some user && negb (onboardingComplete A (store v))
        then setOnboardingComplete A true s
        else s
    | Thrown =>
        setOnboardingComplete A false (setCurrentUser A None s1)
    end in
  {| store := setLoading A false s2;
     fontsLoaded := fontsLoaded v;
     fontError := fontError v;
     appInitialized := true |}.

End Component.

(** A store kept as a plain record, each setter assigning its field. *)
Record Plain : Type := {
  loading : bool;
  user : option string;
  onboarded : bool
}.

Definition plain : AppStore :=
  {| Store := Plain;
     User := string;
     isLoading := loading;
     isAuthenticated := fun s => is_some (user s);
     onboardingComplete := onboarded;
     setLoading := fun b s =>
       {| loading := b; user := user s; onboarded := onboarded s |};
     setCurrentUser := fun u s =>
       {| loading := loading s; user := u; onboarded := onboarded s |};
     setOnboardingComplete := fun b s =>
       {| loading := loading s; user := user s; onboarded := b |} |}.

(** The first render once the fonts are in: nothing initialised yet. *)
Definition fresh : Screen plain :=
  Build_Screen plain {| loading := true; user := None; onboarded := false |}
    true false false.

End RootLayout.

(* ================================================================== *)
(** ** The logging service *)

Lemma logFoodToDiary_unfold (options : Options) (env : Env) (db : Database) :
  logFoodToDiary options env db =
  if write_succeeds env
  then (Resolved undefined,
        commit [new_entry options env]
               (diary_entries db ++ [new_entry options env]) db)
  else (Rejected WriteFailed, db).
Proof.
  unfold logFoodToDiary, write, create, write_succeeds.
  destruct (fault env) as [|k]; [reflexivity|].
  do 10 (destruct k as [|k]; [reflexivity|]).
  reflexivity.
Qed.

Lemma logFoodToDiary_entries (options : Options) (env : Env) (db : Database) :
  write_succeeds env = true ->
  diary_entries (snd (logFoodToDiary options env db)) =
  diary_entries db ++ [new_entry options env].
Proof.
  intros Hok. rewrite logFoodToDiary_unfold, Hok. reflexivity.
Qed.

Lemma logFoodToDiary_failed (options : Options) (env : Env) (db : Database) :
  write_succeeds env = false ->
  logFoodToDiary options env db = (Rejected WriteFailed, db).
Proof.
  intros Hko. rewrite logFoodToDiary_unfold, Hko. reflexivity.
Qed.

(** Catalog changes leave the diary collection alone. *)
Lemma update_food_entries (i : string) (change : Food.t -> Food.t)
  (db : Database) :
  diary_entries (update_food i change db) = diary_entries db.
Proof. reflexivity. Qed.

Lemma run_catalog_only_entries (ops : list Op) :
  forallb catalog_only ops = true ->
  forall db, diary_entries (run ops db) = diary_entries db.
Proof.
  induction ops as [|op ops IH]; intros Hops db; [reflexivity|].
  simpl in Hops. apply andb_true_iff in Hops as [Hop Hrest].
  unfold run in *. simpl. rewrite (IH Hrest).
  destruct op; simpl in Hop; try discriminate. apply update_food_entries.
Qed.

(** What a number column holds of an assigned number. *)
Lemma stored_number_holds (x : float) :
  Spec.holds (DiaryEntry.stored_number x) x.
Proof.
  unfold Spec.holds, Spec.finite, DiaryEntry.stored_number.
  destruct ((x =? x) && negb (x =? infinity) && negb (x =? neg_infinity))%float;
    destruct (x =? 0)%float; repeat split; intros; congruence.
Qed.

(** A history without changes and deletions of entries only appends. *)
Lemma step_keeps_entries (op : Op) (db : Database) :
  keeps_entries op = true ->
  exists more, diary_entries (step db op) = diary_entries db ++ more.
Proof.
  destruct op as [d|options env|i change|i|i change]; simpl;
    intros Hop; try discriminate.
  - exists []. now rewrite app_nil_r.
  - rewrite logFoodToDiary_unfold. destruct (write_succeeds env); simpl.
    + now exists [new_entry options env].
    + exists []. now rewrite app_nil_r.
  - exists []. now rewrite app_nil_r.
Qed.

Lemma run_keeps_entries (ops : list Op) :
  forallb keeps_entries ops = true ->
  forall db, exists more, diary_entries (run ops db) = diary_entries db ++ more.
Proof.
  induction ops as [|op ops IH]; intros Hops db.
  - exists []. now rewrite app_nil_r.
  - simpl in Hops. apply andb_true_iff in Hops as [Hop Hrest].
    destruct (step_keeps_entries op db Hop) as [more1 H1].
    destruct (IH Hrest (step db op)) as [more2 H2].
    exists (more1 ++ more2). unfold run in *. simpl.
    now rewrite H2, H1, app_assoc.
Qed.

(** C1, as the specification states it, fails: with the valid servings
    1e308 the product with 165 calories is infinite, and an infinite number
    assigned to a number column is stored as 0. *)
Lemma logFoodToDiary_denormalizes_counterexample :
  Spec.positive_finite (servings Sample.huge_call) = true
  /\ (Food.calories (food Sample.huge_call) * servings Sample.huge_call)%float
     = infinity
  /\ map DiaryEntry.calories
         (diary_entries
            (snd (logFoodToDiary Sample.huge_call Sample.env1
                    Sample.empty_db)))
     = [0%float].
Proof. repeat split. Qed.

(** C1, amended.  When the write goes through, the diary gains exactly one
    entry, and each of its four nutrient fields holds the food's
    per-serving value times the servings: the product itself when it is
    finite and not zero, and 0 when it is a zero, NaN or infinite.  For a
    food with calories 165, protein 31, carbs 0 and fat 3.6 logged with 2
    servings the fields are 330, 62, 0 and 7.2. *)
Theorem logFoodToDiary_denormalizes
  (options : Options) (env : Env) (db : Database) :
  write_succeeds env = true ->
  exists e,
    diary_entries (snd (logFoodToDiary options env db))
    = diary_entries db ++ [e]
    /\ Spec.holds (DiaryEntry.calories e)
         (Food.calories (food options) * servings options)%float
    /\ Spec.holds (DiaryEntry.protein_g e)
         (Food.protein_g (food options) * servings options)%float
    /\ Spec.holds (DiaryEntry.carbs_g e)
         (Food.carbs_g (food options) * servings options)%float
    /\ Spec.holds (DiaryEntry.fat_g e)
         (Food.fat_g (food options) * servings options)%float
    /\ (Food.calories (food options) = 165%float ->
        Food.protein_g (food options) = 31%float ->
        Food.carbs_g (food options) = 0%float ->
        Food.fat_g (food options) = 3.6%float ->
        servings options = 2%float ->
        DiaryEntry.calories e = 330%float
        /\ DiaryEntry.protein_g e = 62%float
        /\ DiaryEntry.carbs_g e = 0%float
        /\ DiaryEntry.fat_g e = 7.2%float).
Proof.
  intros Hok. exists (new_entry options env).
  split; [apply logFoodToDiary_entries; exact Hok|].
  repeat (split; [apply stored_number_holds|]).
  intros Hc Hp Hb Hf Hs. simpl.
  rewrite Hc, Hp, Hb, Hf, Hs. repeat split; reflexivity.
Qed.

Lemma logFoodToDiary_denormalizes_witness :
  exists e,
    diary_entries
      (snd (logFoodToDiary Sample.two_servings Sample.env1 Sample.empty_db))
    = [e]
    /\ DiaryEntry.calories e = 330%float
    /\ DiaryEntry.protein_g e = 62%float
    /\ DiaryEntry.carbs_g e = 0%float
    /\ DiaryEntry.fat_g e = 7.2%float.
Proof.
  destruct (logFoodToDiary_denormalizes
              Sample.two_servings Sample.env1 Sample.empty_db eq_refl)
    as [e [He [_ [_ [_ [_ Hex]]]]]].
  exists e. split; [exact He|].
  apply Hex; reflexivity.
Defined.

(** C7, as the specification states it, fails: a call with valid inputs whose
    write commits resolves to [undefined], not to the entry it created. *)
Lemma logFoodToDiary_returns_entry_counterexample :
  Spec.valid_input Sample.two_servings = true
  /\ write_succeeds Sample.env1 = true
  /\ fst (logFoodToDiary Sample.two_servings Sample.env1 Sample.empty_db)
     = Resolved undefined
  /\ forall e,
       fst (logFoodToDiary Sample.two_servings Sample.env1 Sample.empty_db)
       <> Resolved (entry_object e).
Proof.
  repeat split; try reflexivity.
  intros e; cbv; discriminate.
Qed.

(** C7, amended.  When the write goes through, the call resolves to
    [undefined]; the entry it created, carrying the identity generated for
    it, is the last record of the diary collection. *)
Theorem logFoodToDiary_resolves_undefined
  (options : Options) (env : Env) (db : Database) :
  write_succeeds env = true ->
  fst (logFoodToDiary options env db) = Resolved undefined
  /\ diary_entries (snd (logFoodToDiary options env db))
     = diary_entries db ++ [new_entry options env]
  /\ DiaryEntry.id (new_entry options env) = new_id env.
Proof.
  intros Hok. rewrite logFoodToDiary_unfold, Hok. repeat split.
Qed.

Lemma logFoodToDiary_resolves_undefined_witness :
  fst (logFoodToDiary Sample.two_servings Sample.env1 Sample.empty_db)
  = Resolved undefined
  /\ diary_entries
       (snd (logFoodToDiary Sample.two_servings Sample.env1 Sample.empty_db))
     = [] ++ [new_entry Sample.two_servings Sample.env1]
  /\ DiaryEntry.id (new_entry Sample.two_servings Sample.env1) = "e1".
Proof.
  apply (logFoodToDiary_resolves_undefined
           Sample.two_servings Sample.env1 Sample.empty_db).
  reflexivity.
Defined.

(** C4, as the specification states it, fails: with -1 servings and the
    date "2024-01-5" the call is not rejected; it resolves and the entry is
    in the store, with negative totals.  Servings that are NaN or infinite
    are not rejected either: the entry is created with servings 0. *)
Lemma logFoodToDiary_invalid_input_counterexample :
  (Spec.positive_finite (servings Sample.bad_call) = false
   /\ Spec.well_formed_date (date Sample.bad_call) = false
   /\ fst (logFoodToDiary Sample.bad_call Sample.env1 Sample.empty_db)
      = Resolved undefined
   /\ diary_entries
        (snd (logFoodToDiary Sample.bad_call Sample.env1 Sample.empty_db))
      = [DiaryEntry.mk "e1" "u1" "f1" "2024-01-5" "lunch"
           (-1) (-165) (-31) 0 (-3.6)])
  /\ (Spec.positive_finite (servings Sample.nan_call) = false
      /\ fst (logFoodToDiary Sample.nan_call Sample.env1 Sample.empty_db)
         = Resolved undefined
      /\ diary_entries
           (snd (logFoodToDiary Sample.nan_call Sample.env1 Sample.empty_db))
         = [DiaryEntry.mk "e1" "u1" "f1" "2024-01-15" "lunch" 0 0 0 0 0])
  /\ (Spec.positive_finite (servings Sample.infinite_call) = false
      /\ fst (logFoodToDiary Sample.infinite_call Sample.env1 Sample.empty_db)
         = Resolved undefined
      /\ diary_entries
           (snd (logFoodToDiary Sample.infinite_call Sample.env1
                   Sample.empty_db))
         = [DiaryEntry.mk "e1" "u1" "f1" "2024-01-15" "lunch" 0 0 0 0 0]).
Proof. repeat split. Qed.

(** C4, amended.  logFoodToDiary checks none of its inputs: whatever the
    servings and the date string, the call is never rejected with
    InvalidInput, and when the write goes through exactly one entry is
    created, with the date and the meal type as supplied and with the
    servings as a number column holds them (as supplied when finite and
    not zero, 0 for a zero, NaN or an infinity). *)
Theorem logFoodToDiary_no_validation
  (options : Options) (env : Env) (db : Database) :
  fst (logFoodToDiary options env db) <> Rejected InvalidInput
  /\ (write_succeeds env = true ->
      exists e,
        logFoodToDiary options env db
        = (Resolved undefined,
           commit [e] (diary_entries db ++ [e]) db)
        /\ DiaryEntry.date e = date options
        /\ DiaryEntry.mealType e = mealType_string (mealType options)
        /\ Spec.holds (DiaryEntry.servings e) (servings options)).
Proof.
  split.
  - rewrite logFoodToDiary_unfold.
    destruct (write_succeeds env); simpl; discriminate.
  - intros Hok. exists (new_entry options env).
    rewrite logFoodToDiary_unfold, Hok.
    repeat split; apply stored_number_holds.
Qed.

Lemma logFoodToDiary_no_validation_witness :
  exists e,
    logFoodToDiary Sample.bad_call Sample.env1 Sample.empty_db
    = (Resolved undefined,
       commit [e] (diary_entries Sample.empty_db ++ [e]) Sample.empty_db)
    /\ DiaryEntry.date e = "2024-01-5"
    /\ DiaryEntry.mealType e = "lunch"
    /\ DiaryEntry.servings e = (-1)%float.
Proof.
  destruct (logFoodToDiary_no_validation
              Sample.bad_call Sample.env1 Sample.empty_db)
    as [_ Hcreated].
  destruct (Hcreated eq_refl) as [e [Hlog [Hdate [Hmeal Hservings]]]].
  exists e. repeat split; try assumption.
  apply Hservings; reflexivity.
Defined.

(** C5.  Whatever fails and wherever (an assignment of the builder, or the
    commit), a call either resolves with exactly one complete new record at
    the end of the diary collection and the catalog untouched, or is
    rejected with WriteFailed and leaves the whole store as it was; no
    record of the builder's intermediate states is ever in the store. *)
Theorem logFoodToDiary_atomic
  (options : Options) (env : Env) (db : Database) :
  (fst (logFoodToDiary options env db) = Resolved undefined
   /\ diary_entries (snd (logFoodToDiary options env db))
      = diary_entries db ++ [new_entry options env]
   /\ foods (snd (logFoodToDiary options env db)) = foods db)
  \/ (fst (logFoodToDiary options env db) = Rejected WriteFailed
      /\ snd (logFoodToDiary options env db) = db).
Proof.
  rewrite logFoodToDiary_unfold.
  destruct (write_succeeds env); [left | right]; repeat split.
Qed.

(** C8, as the specification states it, fails: logged with 1e308 servings,
    165 calories make an infinite product; the stored total is 0, before
    and after the catalog record is changed, not servings times the
    calories at creation. *)
Lemma logged_totals_counterexample :
  (Food.calories (food Sample.huge_call) * servings Sample.huge_call)%float
  = infinity
  /\ map DiaryEntry.calories
         (diary_entries
            (run [UpdateFood "f1" Sample.recalibrate]
               (snd (logFoodToDiary Sample.huge_call Sample.env1
                       Sample.empty_db))))
     = [0%float].
Proof. repeat split. Qed.

(** C8, amended.  After an entry has been logged, no sequence of later
    changes to catalog records (the logged food included), further
    logFoodToDiary calls and new subscriptions alters it: it stays where
    it was in the diary collection, and each of its totals stays what was
    stored when it was logged, the servings times the food's value at that
    time when this product is finite and not zero, and 0 otherwise.  Under
    catalog changes alone the whole diary collection stays as it was. *)
Theorem logged_totals_survive_catalog_changes
  (options : Options) (env : Env) (db : Database) (later : list Op) :
  write_succeeds env = true ->
  forallb keeps_entries later = true ->
  exists e,
    nth_error (diary_entries (run later (snd (logFoodToDiary options env db))))
              (List.length (diary_entries db))
    = Some e
    /\ DiaryEntry.foodId e = Food.id (food options)
    /\ Spec.holds (DiaryEntry.calories e)
         (Food.calories (food options) * servings options)%float
    /\ Spec.holds (DiaryEntry.protein_g e)
         (Food.protein_g (food options) * servings options)%float
    /\ Spec.holds (DiaryEntry.carbs_g e)
         (Food.carbs_g (food options) * servings options)%float
    /\ Spec.holds (DiaryEntry.fat_g e)
         (Food.fat_g (food options) * servings options)%float
    /\ (forallb catalog_only later = true ->
        diary_entries (run later (snd (logFoodToDiary options env db)))
        = diary_entries db ++ [e]).
Proof.
  intros Hok Hlater. exists (new_entry options env).
  split.
  - destruct (run_keeps_entries later Hlater
                (snd (logFoodToDiary options env db))) as [more Hmore].
    rewrite Hmore, (logFoodToDiary_entries options env db Hok).
    rewrite <- app_assoc. rewrite nth_error_app2 by apply Nat.le_refl.
    now rewrite Nat.sub_diag.
  - split; [reflexivity|].
    repeat (split; [apply stored_number_holds|]).
    intros Hcatalog. rewrite (run_catalog_only_entries later Hcatalog).
    apply (logFoodToDiary_entries options env db Hok).
Qed.

Lemma logged_totals_survive_catalog_changes_witness :
  Food.calories
    (hd Sample.salmon
       (foods (run [UpdateFood "f1" Sample.recalibrate;
                    Log Sample.next_day Sample.env2;
                    Subscribe "2024-01-16"]
                 (snd (logFoodToDiary Sample.two_servings Sample.env1
                         Sample.empty_db)))))
  = 999%float
  /\ exists e,
       nth_error
         (diary_entries
            (run [UpdateFood "f1" Sample.recalibrate;
                  Log Sample.next_day Sample.env2;
                  Subscribe "2024-01-16"]
               (snd (logFoodToDiary Sample.two_servings Sample.env1
                       Sample.empty_db))))
         0
       = Some e
       /\ DiaryEntry.foodId e = "f1"
       /\ DiaryEntry.calories e = (165 * 2)%float
       /\ DiaryEntry.fat_g e = (3.6 * 2)%float.
Proof.
  split; [reflexivity|].
  destruct (logged_totals_survive_catalog_changes
              Sample.two_servings Sample.env1 Sample.empty_db
              [UpdateFood "f1" Sample.recalibrate;
               Log Sample.next_day Sample.env2;
               Subscribe "2024-01-16"] eq_refl eq_refl)
    as [e [He [Hfood [Hcal [_ [_ [Hfat _]]]]]]].
  exists e. repeat split; try assumption.
  - apply Hcal; reflexivity.
  - apply Hfat; reflexivity.
Defined.

Example write_failing_midway :
  logFoodToDiary Sample.two_servings {| new_id := "e1"; fault := FailAt 5 |}
    Sample.empty_db
  = (Rejected WriteFailed, Sample.empty_db).
Proof. reflexivity. Qed.
(* ================================================================== *)
(** ** Characters *)

Ltac by_cases_on_char c :=
  destruct c as [[] [] [] [] [] [] [] []]; reflexivity.

Lemma lower_ascii_idempotent (c : ascii) :
  JS.lower_ascii (JS.lower_ascii c) = JS.lower_ascii c.
Proof. by_cases_on_char c. Qed.

Lemma lower_ascii_percent (c : ascii) :
  Ascii.eqb (JS.lower_ascii c) "%" = Ascii.eqb c "%".
Proof. by_cases_on_char c. Qed.

Lemma lower_ascii_underscore (c : ascii) :
  Ascii.eqb (JS.lower_ascii c) "_" = Ascii.eqb c "_".
Proof. by_cases_on_char c. Qed.

Lemma lower_ascii_space (c : ascii) :
  Ascii.eqb (JS.lower_ascii c) " " = Ascii.eqb c " ".
Proof. by_cases_on_char c. Qed.

Lemma lower_ascii_whitespace (c : ascii) :
  Spec.is_whitespace (JS.lower_ascii c) = Spec.is_whitespace c.
Proof. by_cases_on_char c. Qed.

Lemma space_is_whitespace (c : ascii) :
  Ascii.eqb c " " = true -> Spec.is_whitespace c = true.
Proof. intros Hc. apply Ascii.eqb_eq in Hc. subst c. reflexivity. Qed.

(* ================================================================== *)
(** ** Strings *)

Lemma toLowerCase_idempotent (s : string) :
  JS.toLowerCase (JS.toLowerCase s) = JS.toLowerCase s.
Proof.
  induction s as [|c s IH]; simpl; [reflexivity|].
  now rewrite lower_ascii_idempotent, IH.
Qed.

Lemma toLowerCase_app (s t : string) :
  JS.toLowerCase (s ++ t) = (JS.toLowerCase s ++ JS.toLowerCase t)%string.
Proof.
  induction s as [|c s IH]; simpl; [reflexivity|]. now rewrite IH.
Qed.

Lemma toLowerCase_spaces (n : nat) :
  JS.toLowerCase (Spec.spaces n) = Spec.spaces n.
Proof.
  induction n as [|n IH]; simpl; [reflexivity|]. now rewrite IH.
Qed.

Lemma toLowerCase_empty (s : string) :
  JS.toLowerCase s = EmptyString -> s = EmptyString.
Proof. destruct s; simpl; [reflexivity | discriminate]. Qed.

Lemma wildcard_free_toLowerCase (s : string) :
  Spec.wildcard_free (JS.toLowerCase s) = Spec.wildcard_free s.
Proof.
  induction s as [|c s IH]; simpl; [reflexivity|].
  now rewrite lower_ascii_percent, lower_ascii_underscore, IH.
Qed.

Lemma plain_spaces_toLowerCase (s : string) :
  Spec.plain_spaces (JS.toLowerCase s) = Spec.plain_spaces s.
Proof.
  induction s as [|c s IH]; simpl; [reflexivity|].
  now rewrite lower_ascii_whitespace, lower_ascii_space, IH.
Qed.

Lemma split_not_nil (sep : ascii) (s : string) : JS.split sep s <> [].
Proof.
  destruct s as [|c s]; simpl; [discriminate|].
  destruct (Ascii.eqb c sep); [discriminate|].
  destruct (JS.split sep s); discriminate.
Qed.

Lemma split_wildcard_free (sep : ascii) (s : string) :
  Spec.wildcard_free s = true ->
  Forall (fun w => Spec.wildcard_free w = true) (JS.split sep s).
Proof.
  induction s as [|c s IH]; simpl; intros Hs.
  - constructor; [reflexivity | constructor].
  - apply andb_true_iff in Hs as [Hc Hs]. specialize (IH Hs).
    destruct (Ascii.eqb c sep).
    + constructor; [reflexivity | exact IH].
    + destruct (JS.split sep s) as [|w ws].
      * constructor; [simpl; now rewrite Hc | constructor].
      * inversion IH as [|? ? Hw Hws]; subst.
        constructor; [simpl; now rewrite Hc, Hw | exact Hws].
Qed.

(** With the space as the only white space, splitting at white space is
    splitting at spaces. *)
Lemma pieces_split (s : string) :
  Spec.plain_spaces s = true -> Spec.pieces s = JS.split " " s.
Proof.
  induction s as [|c s IH]; simpl; intros Hs; [reflexivity|].
  apply andb_true_iff in Hs as [Hc Hs]. rewrite (IH Hs).
  destruct (Ascii.eqb c " ") eqn:Hsp.
  - now rewrite (space_is_whitespace c Hsp).
  - rewrite orb_false_r in Hc. apply negb_true_iff in Hc. now rewrite Hc.
Qed.

Lemma split_spaces (n : nat) :
  JS.split " " (Spec.spaces n) = repeat EmptyString (S n).
Proof.
  induction n as [|n IH]; [reflexivity|].
  change (Spec.spaces (S n)) with (String " " (Spec.spaces n)).
  simpl JS.split. rewrite IH. reflexivity.
Qed.

Lemma split_app_spaces (s : string) (n : nat) :
  JS.split " " (s ++ Spec.spaces n) = JS.split " " s ++ repeat EmptyString n.
Proof.
  induction s as [|c s IH].
  - simpl String.append. rewrite split_spaces. reflexivity.
  - simpl. rewrite IH. destruct (Ascii.eqb c " "); [reflexivity|].
    pose proof (split_not_nil " " s) as Hne.
    destruct (JS.split " " s) as [|w ws]; [contradiction|]. reflexivity.
Qed.

Lemma filter_truthy_empties (l : list string) (n : nat) :
  filter JS.truthy (l ++ repeat EmptyString n) = filter JS.truthy l.
Proof.
  rewrite filter_app.
  replace (filter JS.truthy (repeat EmptyString n)) with (@nil string).
  - apply app_nil_r.
  - induction n as [|n IH]; [reflexivity | exact IH].
Qed.

Lemma split_spaces_app (n : nat) (s : string) :
  filter JS.truthy (JS.split " " (Spec.spaces n ++ s))
  = filter JS.truthy (JS.split " " s).
Proof.
  induction n as [|n IH]; [reflexivity | exact IH].
Qed.

(* ================================================================== *)
(** ** The LIKE operator *)

Lemma like_percent_step (p s : string) :
  Q.like (String "%" p) s
  = Q.like p s
    || match s with
       | EmptyString => false
       | String _ s' => Q.like (String "%" p) s'
       end.
Proof. destruct s; reflexivity. Qed.

Lemma like_percent_alone (s : string) : Q.like "%" s = true.
Proof.
  induction s as [|c s IH]; [reflexivity|].
  rewrite like_percent_step. rewrite IH. apply orb_true_r.
Qed.

Lemma like_literal_step (p : ascii) (pattern : string) (c : ascii)
  (s : string) :
  Ascii.eqb p "%" = false -> Ascii.eqb p "_" = false ->
  Q.like (String p pattern) (String c s)
  = Q.char_eqb p c && Q.like pattern s.
Proof. intros Hp Hu. simpl. now rewrite Hp, Hu. Qed.

Lemma like_literal_empty (p : ascii) (pattern : string) :
  Ascii.eqb p "%" = false -> Q.like (String p pattern) "" = false.
Proof. intros Hp. simpl. now rewrite Hp. Qed.

(** A token without metacharacters followed by ['%'] matches exactly the
    strings that start with the token, case apart. *)
Lemma like_token_prefix (w : string) :
  Spec.wildcard_free w = true ->
  forall s, Q.like (w ++ "%") s
            = Spec.is_prefix (JS.toLowerCase w) (JS.toLowerCase s).
Proof.
  induction w as [|p w IH]; intros Hw s.
  - simpl String.append. rewrite like_percent_alone. reflexivity.
  - simpl in Hw.
    apply andb_true_iff in Hw as [Hw Hrest].
    apply andb_true_iff in Hw as [Hp Hu].
    apply negb_true_iff in Hp, Hu.
    change (String p w ++ "%")%string with (String p (w ++ "%")).
    destruct s as [|c s].
    + now rewrite like_literal_empty.
    + rewrite like_literal_step by assumption.
      rewrite (IH Hrest). reflexivity.
Qed.

(** Between two ['%'], it matches exactly the strings that contain it. *)
Lemma like_token_contains (w : string) :
  Spec.wildcard_free w = true ->
  forall s, Q.like ("%" ++ w ++ "%") s = Spec.contains_ci s w.
Proof.
  intros Hw s. unfold Spec.contains_ci.
  change ("%" ++ w ++ "%")%string with (String "%" (w ++ "%")).
  induction s as [|c s IH].
  - rewrite like_percent_step, like_token_prefix by exact Hw.
    simpl. now rewrite orb_false_r.
  - rewrite like_percent_step, like_token_prefix by exact Hw.
    rewrite IH. reflexivity.
Qed.

(* ================================================================== *)
(** ** Lists and pieces *)

Lemma split_app_space (a b : string) :
  JS.split " " (a ++ String " " b) = JS.split " " a ++ JS.split " " b.
Proof.
  induction a as [|c a IH]; [reflexivity|].
  simpl. rewrite IH. destruct (Ascii.eqb c " "); [reflexivity|].
  pose proof (split_not_nil " " a) as Hne.
  destruct (JS.split " " a) as [|w ws]; [contradiction | reflexivity].
Qed.

Lemma forallb_agree {A : Type} (f g : A -> bool) (l : list A) :
  Forall (fun x => f x = g x) l -> forallb f l = forallb g l.
Proof.
  induction 1 as [|x l Hx _ IH]; simpl; [reflexivity|]. now rewrite Hx, IH.
Qed.

Lemma forallb_permutation {A : Type} (f : A -> bool) (l l' : list A) :
  Permutation l l' -> forallb f l = forallb f l'.
Proof.
  induction 1 as [|x l l' _ IH|x y l|l l' l'' _ IH1 _ IH2]; simpl.
  - reflexivity.
  - now rewrite IH.
  - destruct (f x), (f y); reflexivity.
  - now rewrite IH1.
Qed.

Lemma forallb_same_elements {T : Type} (p : T -> bool) (l l' : list T) :
  (forall x, In x l <-> In x l') -> forallb p l = forallb p l'.
Proof.
  intros Hsame.
  destruct (forallb p l) eqn:Hl; symmetry.
  - apply forallb_forall. intros x Hx.
    rewrite forallb_forall in Hl. apply Hl, Hsame, Hx.
  - destruct (forallb p l') eqn:Hl'; [|reflexivity].
    rewrite <- Hl. symmetry. apply forallb_forall. intros x Hx.
    rewrite forallb_forall in Hl'. apply Hl', Hsame, Hx.
Qed.

Lemma filter_all {T : Type} (p : T -> bool) (l : list T) :
  (forall x, In x l -> p x = true) -> filter p l = l.
Proof.
  induction l as [|x l IH]; intros Hall; [reflexivity|].
  simpl. rewrite (Hall x (or_introl eq_refl)). f_equal.
  apply IH. intros y Hy. apply Hall. now right.
Qed.

Lemma like_name_case (p : string) :
  forall s s',
    JS.toLowerCase s = JS.toLowerCase s' -> Q.like p s = Q.like p s'.
Proof.
  induction p as [|c p IH]; intros s s' Hcase.
  - destruct s, s'; simpl in Hcase; try discriminate; reflexivity.
  - destruct (Ascii.eqb c "%") eqn:Hc.
    + apply Ascii.eqb_eq in Hc. subst c.
      revert s' Hcase. induction s as [|a s IHs]; intros s' Hcase.
      * destruct s'; [reflexivity | discriminate].
      * destruct s' as [|a' s']; [discriminate|].
        rewrite (like_percent_step p (String a s)).
        rewrite (like_percent_step p (String a' s')).
        rewrite (IH _ _ Hcase). injection Hcase as _ Hrest.
        now rewrite (IHs s' Hrest).
    + destruct s as [|a s], s' as [|a' s']; try discriminate.
      * reflexivity.
      * injection Hcase as Ha Hrest. simpl. rewrite Hc.
        unfold Q.char_eqb. now rewrite Ha, (IH s s' Hrest).
Qed.

Lemma percents_app (a b : string) :
  percents a = true -> percents b = true -> percents (a ++ b) = true.
Proof.
  induction a as [|c a IH]; simpl; intros Ha Hb; [exact Hb|].
  apply andb_true_iff in Ha as [Hc Ha]. now rewrite Hc, IH.
Qed.

(** A non-empty pattern of ['%'] only matches every string. *)
Lemma like_percents (p : string) :
  percents p = true -> p <> EmptyString -> forall s, Q.like p s = true.
Proof.
  induction p as [|c p IH]; intros Hp Hne s; [contradiction|].
  simpl in Hp. apply andb_true_iff in Hp as [Hc Hp].
  apply Ascii.eqb_eq in Hc. subst c.
  destruct p as [|c' p'].
  - apply like_percent_alone.
  - rewrite like_percent_step, (IH Hp) by discriminate. reflexivity.
Qed.

Lemma split_percents (s : string) :
  percents_and_spaces s = true ->
  Forall (fun w => percents w = true) (JS.split " " s).
Proof.
  induction s as [|c s IH]; simpl; intros Hs.
  - constructor; [reflexivity | constructor].
  - apply andb_true_iff in Hs as [Hc Hs]. specialize (IH Hs).
    destruct (Ascii.eqb c " ") eqn:Hsp.
    + constructor; [reflexivity | exact IH].
    + rewrite orb_false_r in Hc.
      destruct (JS.split " " s) as [|w ws].
      * constructor; [simpl; now rewrite Hc | constructor].
      * inversion IH as [|? ? Hw Hws]; subst.
        constructor; [simpl; now rewrite Hc, Hw | exact Hws].
Qed.

Lemma append_empty_r (s : string) : (s ++ "")%string = s.
Proof. induction s as [|c s IH]; simpl; [reflexivity | now rewrite IH]. Qed.

Lemma ascii_only_spaces (n : nat) : JS.ascii_only (Spec.spaces n) = true.
Proof. induction n as [|n IH]; [reflexivity | exact IH]. Qed.

Lemma percents_and_spaces_ascii (s : string) :
  percents_and_spaces s = true -> JS.ascii_only s = true.
Proof.
  induction s as [|c s IH]; simpl; intros Hs; [reflexivity|].
  apply andb_true_iff in Hs as [Hc Hs]. rewrite (IH Hs), andb_true_r.
  apply orb_true_iff in Hc as [Hc|Hc]; apply Ascii.eqb_eq in Hc; now subst c.
Qed.

Lemma percents_and_spaces_toLowerCase (s : string) :
  percents_and_spaces s = true -> JS.toLowerCase s = s.
Proof.
  induction s as [|c s IH]; simpl; intros Hs; [reflexivity|].
  apply andb_true_iff in Hs as [Hc Hs]. rewrite (IH Hs). f_equal.
  apply orb_true_iff in Hc as [Hc|Hc]; apply Ascii.eqb_eq in Hc; now subst c.
Qed.

(** Where no piece between spaces has white space in it, splitting at white
    space is splitting at spaces. *)
Lemma pieces_split_words (s : string) :
  forallb Spec.no_whitespace (JS.split " " s) = true ->
  Spec.pieces s = JS.split " " s.
Proof.
  induction s as [|c s IH]; simpl; intros Hs; [reflexivity|].
  destruct (Ascii.eqb c " ") eqn:Hsp.
  - simpl in Hs. rewrite (IH Hs). now rewrite (space_is_whitespace c Hsp).
  - pose proof (split_not_nil " " s) as Hne.
    destruct (JS.split " " s) as [|w ws] eqn:Hsplit; [contradiction|].
    simpl in Hs. apply andb_true_iff in Hs as [Hcw Hws].
    apply andb_true_iff in Hcw as [Hc Hw]. apply negb_true_iff in Hc.
    rewrite Hc, IH; [reflexivity|]. simpl. now rewrite Hw, Hws.
Qed.

Lemma forallb_filter_truthy (p : string -> bool) (l : list string) :
  p EmptyString = true ->
  forallb p (filter JS.truthy l) = forallb p l.
Proof.
  intros Hp. induction l as [|w l IH]; [reflexivity|].
  simpl. destruct w as [|c w]; simpl.
  - now rewrite Hp.
  - now rewrite IH.
Qed.

Lemma split_space_free (s : string) :
  Forall (fun w => Spec.space_free w = true) (JS.split " " s).
Proof.
  induction s as [|c s IH]; simpl.
  - constructor; [reflexivity | constructor].
  - destruct (Ascii.eqb c " ") eqn:Hsp.
    + constructor; [reflexivity | exact IH].
    + destruct (JS.split " " s) as [|w ws].
      * constructor; [simpl; now rewrite Hsp | constructor].
      * inversion IH as [|? ? Hw Hws]; subst.
        constructor; [simpl; now rewrite Hsp, Hw | exact Hws].
Qed.

(** The laws of [Unicode.Casing], for the lowering of ASCII letters. *)
Lemma ascii_toLowerCase_space (a b : string) :
  JS.toLowerCase (a ++ String " " b)
  = (JS.toLowerCase a ++ String " " (JS.toLowerCase b))%string.
Proof. now rewrite toLowerCase_app. Qed.

Lemma truthy_nonempty (q : string) : JS.truthy q = true -> q <> EmptyString.
Proof. destruct q; [discriminate | discriminate]. Qed.

Lemma truthy_app_left (q r : string) :
  JS.truthy q = true -> JS.truthy (q ++ r) = true.
Proof. destruct q; [discriminate | reflexivity]. Qed.

Lemma truthy_app_space (a r : string) : JS.truthy (a ++ String " " r) = true.
Proof. destruct a; reflexivity. Qed.

Lemma forallb_weaken {T : Type} (p r : T -> bool) (l : list T) :
  (forall x, p x = true -> r x = true) ->
  forallb p l = true -> forallb r l = true.
Proof.
  intros Hpr Hl. apply forallb_forall. intros x Hx.
  rewrite forallb_forall in Hl. now apply Hpr, Hl.
Qed.

(** ['%'] at the head of a pattern lets the rest match any suffix. *)
Lemma like_percent_suffix (pattern s : string) :
  Q.like (String "%" pattern) s = true
  <-> exists a b, s = (a ++ b)%string /\ Q.like pattern b = true.
Proof.
  induction s as [|c s IH]; rewrite like_percent_step.
  - rewrite orb_false_r. split.
    + intros H. now exists EmptyString, EmptyString.
    + intros [a [b [Hs Hb]]]. destruct a; [|discriminate].
      simpl in Hs. now subst b.
  - rewrite orb_true_iff, IH. split.
    + intros [H|[a [b [Hs Hb]]]].
      * now exists EmptyString, (String c s).
      * exists (String c a), b. simpl. now rewrite Hs.
    + intros [a [b [Hs Hb]]]. destruct a as [|c' a].
      * left. simpl in Hs. now subst b.
      * right. injection Hs as _ Hs. now exists a, b.
Qed.

(** The clause built from the search words, read on one food. *)
Lemma name_clause_satisfied (ws : list string) (f : Food.t) :
  satisfies
    [Q.And (map (fun word =>
                   Q.Where "name" (Q.Like ("%" ++ word ++ "%")%string)) ws)]
    f
  = forallb (fun w => Q.like ("%" ++ w ++ "%") (Food.name f)) ws.
Proof.
  unfold satisfies. simpl forallb at 1. rewrite andb_true_r.
  simpl matches. induction ws as [|w ws IH]; [reflexivity|].
  simpl map. simpl forallb. rewrite IH. reflexivity.
Qed.

(* ================================================================== *)
(** ** The search engine *)

Section Search.

Context {casing : Unicode.Casing}.

Lemma toLowerCase_of_empty : Unicode.toLowerCase "" = "".
Proof. now rewrite Unicode.toLowerCase_ascii. Qed.

Lemma toLowerCase_of_spaces (n : nat) :
  Unicode.toLowerCase (Spec.spaces n) = Spec.spaces n.
Proof.
  rewrite Unicode.toLowerCase_ascii by apply ascii_only_spaces.
  apply toLowerCase_spaces.
Qed.

Lemma toLowerCase_leading_spaces (n : nat) (q : string) :
  Unicode.toLowerCase (Spec.spaces n ++ q)
  = (Spec.spaces n ++ Unicode.toLowerCase q)%string.
Proof.
  induction n as [|n IH]; [reflexivity|].
  change (Spec.spaces (S n) ++ q)%string
    with ("" ++ String " " (Spec.spaces n ++ q))%string.
  rewrite Unicode.toLowerCase_space, toLowerCase_of_empty, IH. reflexivity.
Qed.

Lemma toLowerCase_trailing_spaces (q : string) (m : nat) :
  Unicode.toLowerCase (q ++ Spec.spaces m)
  = (Unicode.toLowerCase q ++ Spec.spaces m)%string.
Proof.
  destruct m as [|m].
  - simpl. now rewrite !append_empty_r.
  - change (Spec.spaces (S m)) with (String " " (Spec.spaces m)).
    now rewrite Unicode.toLowerCase_space, toLowerCase_of_spaces.
Qed.

(** On a query of ASCII characters the search words are computed by
    lowering the letters A to Z. *)
Lemma searchWords_ascii (q : string) :
  JS.ascii_only q = true ->
  searchWords q = filter JS.truthy (JS.split " " (JS.toLowerCase q)).
Proof.
  intros Hq. unfold searchWords. now rewrite Unicode.toLowerCase_ascii.
Qed.

(** Padding a query with spaces does not change its search words. *)
Lemma searchWords_padded (n m : nat) (q : string) :
  searchWords (Spec.spaces n ++ q ++ Spec.spaces m) = searchWords q.
Proof.
  unfold searchWords.
  rewrite toLowerCase_leading_spaces, toLowerCase_trailing_spaces.
  rewrite split_spaces_app, split_app_spaces.
  apply filter_truthy_empties.
Qed.

(** The search words of two queries joined by a space are those of the one
    followed by those of the other. *)
Lemma searchWords_join (q w : string) :
  searchWords (q ++ String " " w) = searchWords q ++ searchWords w.
Proof.
  unfold searchWords.
  now rewrite Unicode.toLowerCase_space, split_app_space, filter_app.
Qed.

Lemma searchWords_leading_spaces (n : nat) (q : string) :
  searchWords (Spec.spaces n ++ q) = searchWords q.
Proof.
  unfold searchWords. now rewrite toLowerCase_leading_spaces, split_spaces_app.
Qed.

Lemma has_word_truthy (q : string) :
  has_word q = true -> JS.truthy q = true.
Proof.
  destruct q as [|c q]; [|reflexivity].
  unfold has_word, searchWords. rewrite toLowerCase_of_empty. discriminate.
Qed.

Lemma truthy_case (q q' : string) :
  Unicode.toLowerCase q = Unicode.toLowerCase q' ->
  JS.truthy q = JS.truthy q'.
Proof.
  intros Hcase. destruct q as [|c q], q' as [|c' q']; try reflexivity.
  - rewrite toLowerCase_of_empty in Hcase. symmetry in Hcase.
    apply Unicode.toLowerCase_nonempty in Hcase. discriminate.
  - rewrite toLowerCase_of_empty in Hcase.
    apply Unicode.toLowerCase_nonempty in Hcase. discriminate.
Qed.

Lemma searchFoods_nonempty (q : string) (db : Database) :
  q <> EmptyString ->
  searchFoods q db
  = Resolved
      (filter (fun f =>
                 forallb (fun w => Q.like ("%" ++ w ++ "%") (Food.name f))
                         (searchWords q))
              (foods db)).
Proof.
  intros Hq. unfold searchFoods, fetch.
  destruct q as [|c q]; [contradiction|]. simpl negb. cbv iota.
  f_equal. apply filter_ext. intros f. apply name_clause_satisfied.
Qed.

Lemma found_searchFoods (q : string) (db : Database) (f : Food.t) :
  JS.truthy q = true ->
  In f (found (searchFoods q db))
  <-> In f (foods db)
      /\ forallb (fun w => Q.like ("%" ++ w ++ "%") (Food.name f))
                 (searchWords q) = true.
Proof.
  intros Hq. rewrite searchFoods_nonempty by now apply truthy_nonempty.
  unfold found. apply filter_In.
Qed.

(** Reordering the search words does not change the result. *)
Lemma searchFoods_permutation (q q' : string) (db : Database) :
  q <> EmptyString -> q' <> EmptyString ->
  Permutation (searchWords q) (searchWords q') ->
  searchFoods q db = searchFoods q' db.
Proof.
  intros Hq Hq' Hperm. rewrite !searchFoods_nonempty by assumption.
  f_equal. apply filter_ext. intros f. now apply forallb_permutation.
Qed.

(** Queries with the same lowercase form are searched alike. *)
Lemma searchFoods_case (q q' : string) (db : Database) :
  Unicode.toLowerCase q = Unicode.toLowerCase q' ->
  searchFoods q db = searchFoods q' db.
Proof.
  intros Hcase. unfold searchFoods, searchWords.
  now rewrite (truthy_case q q' Hcase), Hcase.
Qed.

(** Where the search words have no white space, they are the tokens of the
    specification. *)
Lemma tokens_searchWords (q : string) :
  plain_words q = true -> Spec.tokens q = searchWords q.
Proof.
  unfold plain_words, Spec.tokens, searchWords. intros Hq.
  rewrite pieces_split_words; [reflexivity|].
  rewrite <- (forallb_filter_truthy Spec.no_whitespace) by reflexivity.
  revert Hq. apply forallb_weaken. intros w Hw.
  unfold Spec.plain_word in Hw. now apply andb_true_iff in Hw as [_ Hw].
Qed.

(** On queries with a search word, whose words have no LIKE metacharacter
    and no white space, the search is the search of the specification. *)
Lemma searchFoods_spec (q : string) (db : Database) :
  has_word q = true ->
  plain_words q = true ->
  searchFoods q db = Resolved (Spec.search q (foods db)).
Proof.
  intros Hq Hplain.
  rewrite searchFoods_nonempty by apply truthy_nonempty, has_word_truthy, Hq.
  unfold Spec.search, Spec.name_matches.
  rewrite (tokens_searchWords q Hplain).
  f_equal. apply filter_ext. intros f. apply forallb_agree.
  unfold plain_words in Hplain. rewrite forallb_forall in Hplain.
  apply Forall_forall. intros w Hw. specialize (Hplain w Hw).
  unfold Spec.plain_word in Hplain.
  apply andb_true_iff in Hplain as [Hfree _].
  now apply like_token_contains.
Qed.

(** The three searches of the specification's example, on any catalog. *)
Lemma searchFoods_chicken_breast (db : Database) (f : Food.t) :
  In f (foods db) ->
  Food.name f = "Grilled Chicken Breast" ->
  In f (found (searchFoods "chicken breast" db))
  /\ In f (found (searchFoods "BREAST chicken" db))
  /\ ~ In f (found (searchFoods "chicken fish" db)).
Proof.
  intros Hin Hname.
  rewrite !searchFoods_nonempty by discriminate.
  rewrite !searchWords_ascii by reflexivity.
  unfold found. rewrite !filter_In. rewrite Hname.
  repeat split; try assumption; try reflexivity.
  intros [_ Hfalse]. vm_compute in Hfalse. discriminate.
Qed.

(** The search words are non-empty and hold no space. *)
Lemma searchWords_shape (q : string) :
  Forall (fun w => JS.truthy w = true /\ Spec.space_free w = true)
         (searchWords q).
Proof.
  unfold searchWords. apply Forall_forall. intros w Hw.
  apply filter_In in Hw as [Hw Ht]. split; [exact Ht|]. clear Ht.
  revert w Hw. apply Forall_forall, split_space_free.
Qed.

(** C2, amended.  For every query that has a search word, and whose search
    words hold no LIKE metacharacter (['%'], ['_']) and no white space,
    searchFoods returns exactly the catalog records whose name contains,
    the case of ASCII letters apart, every token of the lowercased query.
    On every non-empty query, reordering the space-separated tokens does
    not change the result.  A food named "Grilled Chicken Breast" is found
    by "chicken breast" and by "BREAST chicken", and not by "chicken
    fish". *)
Theorem searchFoods_conjunctive :
  (forall q db,
      has_word q = true ->
      plain_words q = true ->
      searchFoods q db = Resolved (Spec.search q (foods db)))
  /\ (forall q q' db,
         JS.truthy q = true -> JS.truthy q' = true ->
         Permutation (searchWords q) (searchWords q') ->
         searchFoods q db = searchFoods q' db)
  /\ (forall db f,
         In f (foods db) ->
         Food.name f = "Grilled Chicken Breast" ->
         In f (found (searchFoods "chicken breast" db))
         /\ In f (found (searchFoods "BREAST chicken" db))
         /\ ~ In f (found (searchFoods "chicken fish" db))).
Proof.
  split; [|split].
  - apply searchFoods_spec.
  - intros q q' db Hq Hq'.
    apply searchFoods_permutation; now apply truthy_nonempty.
  - apply searchFoods_chicken_breast.
Qed.

(** C3.  The empty query resolves to the empty list on every store.  A query
    of three spaces is empty after trimming, yet it passes the guard, has
    no search word, and resolves to the whole catalog. *)
Theorem searchFoods_blank_query :
  (forall db, searchFoods "" db = Resolved [])
  /\ Spec.blank "   " = true
  /\ (forall db, searchFoods "   " db = Resolved (foods db))
  /\ searchFoods "   " Sample.empty_db
     = Resolved [Sample.chicken; Sample.salmon].
Proof.
  assert (Hall : forall db, searchFoods "   " db = Resolved (foods db)).
  { intros db. rewrite searchFoods_nonempty by discriminate.
    rewrite searchWords_ascii by reflexivity.
    f_equal. apply filter_all. reflexivity. }
  repeat split; try reflexivity; try exact Hall. apply Hall.
Qed.

(** C9, amended.  For every non-empty query, adding space characters before
    and after it does not change the result; two queries that differ in
    letter case only (they have the same lowercase form) have the same
    result; the query is lowercased and split at space characters, into
    search words that are non-empty and hold no space. *)
Theorem searchFoods_padding_and_case :
  (forall q n m db,
      JS.truthy q = true ->
      searchFoods (Spec.spaces n ++ q ++ Spec.spaces m) db = searchFoods q db)
  /\ (forall q q' db,
         Unicode.toLowerCase q = Unicode.toLowerCase q' ->
         searchFoods q db = searchFoods q' db)
  /\ (forall q,
         Forall (fun w => JS.truthy w = true /\ Spec.space_free w = true)
                (searchWords q)).
Proof.
  split; [|split].
  - intros q n m db Hq.
    assert (Hpad : JS.truthy (Spec.spaces n ++ q ++ Spec.spaces m) = true).
    { destruct n; [destruct q; [discriminate | reflexivity] | reflexivity]. }
    rewrite !searchFoods_nonempty by now apply truthy_nonempty.
    now rewrite searchWords_padded.
  - apply searchFoods_case.
  - apply searchWords_shape.
Qed.

(** C10.  For a query with a search word, the clause sent to the store is
    the conjunction, over the search words as they are, of name LIKE
    ['%'] word ['%'].  In a LIKE pattern ['_'] takes any one character and
    ['%'] lets the rest of the pattern match any suffix.  So the query
    "ch_cken", and the query "gr%st", on a catalog of "Grilled Chicken
    Breast" and "Baked Salmon" each return exactly the former, whose name
    does not contain the word, letter case apart or not. *)
Theorem searchFoods_like_metacharacters :
  (forall q db,
      has_word q = true ->
      searchFoods q db
      = Resolved
          (fetch [Q.And (map (fun word =>
                                Q.Where "name"
                                  (Q.Like ("%" ++ word ++ "%")%string))
                             (searchWords q))]
                 (foods db)))
  /\ (forall pattern c s,
         Q.like (String "_" pattern) (String c s) = Q.like pattern s)
  /\ (forall pattern s,
         Q.like (String "%" pattern) s = true
         <-> exists a b, s = (a ++ b)%string /\ Q.like pattern b = true)
  /\ (exists q db f w,
         foods db = [f; Sample.salmon]
         /\ In w (searchWords q) /\ Spec.occurs "_" w = true
         /\ searchFoods q db = Resolved [f]
         /\ Spec.is_substring w (Food.name f) = false
         /\ Spec.contains_ci (Food.name f) w = false)
  /\ (exists q db f w,
         foods db = [f; Sample.salmon]
         /\ In w (searchWords q) /\ Spec.occurs "%" w = true
         /\ searchFoods q db = Resolved [f]
         /\ Spec.is_substring w (Food.name f) = false
         /\ Spec.contains_ci (Food.name f) w = false).
Proof.
  split; [|split; [|split; [|split]]].
  - intros q db Hq. apply has_word_truthy in Hq.
    unfold searchFoods. now rewrite Hq.
  - reflexivity.
  - apply like_percent_suffix.
  - exists "ch_cken", Sample.empty_db, Sample.chicken, "ch_cken".
    rewrite searchFoods_nonempty by discriminate.
    rewrite searchWords_ascii by reflexivity.
    repeat split; try reflexivity; left; reflexivity.
  - exists "gr%st", Sample.empty_db, Sample.chicken, "gr%st".
    rewrite searchFoods_nonempty by discriminate.
    rewrite searchWords_ascii by reflexivity.
    repeat split; try reflexivity; left; reflexivity.
Qed.

(* ------------------------------------------------------------------ *)
(** *** More on the search engine *)

(** X1.  Two queries that each have a search word, joined by a space, find
    exactly the foods that each of them finds: adding words to a query
    can only narrow the result. *)
Theorem searchFoods_joined (q w : string) (db : Database) (f : Food.t) :
  has_word q = true -> has_word w = true ->
  In f (found (searchFoods (q ++ " " ++ w) db))
  <-> In f (found (searchFoods q db)) /\ In f (found (searchFoods w db)).
Proof.
  intros Hq Hw. apply has_word_truthy in Hq, Hw.
  change (q ++ " " ++ w)%string with (q ++ String " " w)%string.
  rewrite !found_searchFoods by (try apply truthy_app_left; assumption).
  rewrite searchWords_join, forallb_app, andb_true_iff. tauto.
Qed.

(** X2.  The result depends on the set of search words only: two non-empty
    queries with the same words, in whatever order and however often
    repeated, find the same foods. *)
Theorem searchFoods_same_words (q q' : string) (db : Database) :
  JS.truthy q = true -> JS.truthy q' = true ->
  (forall w, In w (searchWords q) <-> In w (searchWords q')) ->
  searchFoods q db = searchFoods q' db.
Proof.
  intros Hq Hq' Hsame.
  rewrite !searchFoods_nonempty by now apply truthy_nonempty.
  f_equal. apply filter_ext. intros f. now apply forallb_same_elements.
Qed.

(** X3.  A run of spaces inside a query counts as one space. *)
Theorem searchFoods_space_runs (a b : string) (n : nat) (db : Database) :
  searchFoods (a ++ Spec.spaces (S n) ++ b) db
  = searchFoods (a ++ " " ++ b) db.
Proof.
  change (a ++ Spec.spaces (S n) ++ b)%string
    with (a ++ String " " (Spec.spaces n ++ b))%string.
  change (a ++ " " ++ b)%string with (a ++ String " " b)%string.
  rewrite !searchFoods_nonempty by apply truthy_nonempty, truthy_app_space.
  now rewrite !searchWords_join, searchWords_leading_spaces.
Qed.

(** X4.  Matching does not look at the letter case of the stored name: of
    two catalog records whose names differ in case only, a query finds both
    or neither. *)
Theorem searchFoods_name_case (q : string) (db db' : Database)
  (f f' : Food.t) :
  JS.toLowerCase (Food.name f) = JS.toLowerCase (Food.name f') ->
  In f (foods db) -> In f' (foods db') ->
  In f (found (searchFoods q db)) <-> In f' (found (searchFoods q db')).
Proof.
  intros Hcase Hf Hf'.
  destruct (JS.truthy q) eqn:Hq.
  - rewrite !found_searchFoods by exact Hq.
    assert (Hsame :
      forallb (fun w => Q.like ("%" ++ w ++ "%") (Food.name f)) (searchWords q)
      = forallb (fun w => Q.like ("%" ++ w ++ "%") (Food.name f'))
                (searchWords q)).
    { apply forallb_agree, Forall_forall. intros w _.
      now apply like_name_case. }
    rewrite Hsame. tauto.
  - destruct q; [|discriminate]. simpl. tauto.
Qed.

(** X5.  A query made of ['%'] and spaces only, with at least one ['%'],
    finds the whole catalog, in catalog order. *)
Theorem searchFoods_percent_query (q : string) (db : Database) :
  has_word q = true ->
  percents_and_spaces q = true ->
  searchFoods q db = Resolved (foods db).
Proof.
  intros Hq Hp.
  rewrite searchFoods_nonempty by apply truthy_nonempty, has_word_truthy, Hq.
  f_equal. apply filter_all. intros f _.
  apply forallb_forall. intros w Hw.
  rewrite searchWords_ascii in Hw by now apply percents_and_spaces_ascii.
  apply filter_In in Hw as [Hw _].
  rewrite (percents_and_spaces_toLowerCase q Hp) in Hw.
  pose proof (split_percents q Hp) as Hall.
  rewrite Forall_forall in Hall.
  apply like_percents; [|discriminate].
  change ("%" ++ w ++ "%")%string with (String "%" (w ++ "%")).
  simpl. apply percents_app; [now apply Hall | reflexivity].
Qed.

End Search.

(* ------------------------------------------------------------------ *)
(** *** The search on strings of ASCII characters *)

(** The lowering of the letters A to Z obeys the laws asked of
    [Unicode.Casing]; the searches below are run with it, on ASCII
    queries. *)
#[export] Instance ascii_casing : Unicode.Casing :=
  {| Unicode.toLowerCase := JS.toLowerCase;
     Unicode.toLowerCase_ascii := fun s _ => eq_refl;
     Unicode.toLowerCase_space := ascii_toLowerCase_space;
     Unicode.toLowerCase_nonempty := toLowerCase_empty |}.

(** C2, as the specification states it, fails: the query
    "chicken<TAB>breast", whose tokens "chicken" and "breast" are both in
    the name "Grilled Chicken Breast", finds nothing, because the query is
    split at space characters only. *)
Lemma searchFoods_conjunctive_counterexample :
  Spec.is_whitespace Sample.tab = true
  /\ searchFoods Sample.tabbed_query Sample.empty_db = Resolved []
  /\ Spec.search Sample.tabbed_query (foods Sample.empty_db)
     = [Sample.chicken].
Proof. repeat split. Qed.

Lemma searchFoods_conjunctive_witness :
  searchFoods "Chicken breast" Sample.empty_db
  = Resolved (Spec.search "Chicken breast" (foods Sample.empty_db))
  /\ searchFoods "chicken breast" Sample.empty_db
     = searchFoods "breast chicken" Sample.empty_db
  /\ In Sample.chicken (found (searchFoods "chicken breast" Sample.empty_db))
  /\ In Sample.chicken (found (searchFoods "BREAST chicken" Sample.empty_db))
  /\ ~ In Sample.chicken (found (searchFoods "chicken fish" Sample.empty_db)).
Proof.
  destruct (searchFoods_conjunctive (casing := ascii_casing))
    as [Hspec [Hperm Hexample]].
  split; [|split].
  - apply Hspec; reflexivity.
  - apply Hperm; [reflexivity | reflexivity |].
    vm_compute. apply perm_swap.
  - apply Hexample; [left; reflexivity | reflexivity].
Defined.

(** C9, as the specification states it, fails: a leading tab is white space
    but is not removed, so "<TAB>chicken" does not find what "chicken"
    finds. *)
Lemma searchFoods_padding_counterexample :
  Spec.is_whitespace Sample.tab = true
  /\ searchFoods "chicken" Sample.empty_db = Resolved [Sample.chicken]
  /\ searchFoods (String Sample.tab "chicken") Sample.empty_db = Resolved [].
Proof. repeat split. Qed.

Lemma searchFoods_padding_and_case_witness :
  searchFoods (Spec.spaces 2 ++ "Chicken" ++ Spec.spaces 1) Sample.empty_db
  = searchFoods "Chicken" Sample.empty_db
  /\ searchFoods "Chicken" Sample.empty_db
     = searchFoods "cHICKEN" Sample.empty_db.
Proof.
  destruct (searchFoods_padding_and_case (casing := ascii_casing))
    as [Hpad [Hcase _]].
  split; [apply Hpad | apply Hcase]; reflexivity.
Defined.

Lemma searchFoods_like_metacharacters_witness :
  searchFoods "ch_cken" Sample.empty_db
  = Resolved
      (fetch [Q.And [Q.Where "name" (Q.Like "%ch_cken%")]]
             (foods Sample.empty_db))
  /\ searchFoods "ch_cken" Sample.empty_db = Resolved [Sample.chicken].
Proof.
  destruct (searchFoods_like_metacharacters (casing := ascii_casing))
    as [Hbuilt _].
  split; [|reflexivity].
  apply (Hbuilt "ch_cken" Sample.empty_db). reflexivity.
Defined.

Lemma searchFoods_joined_witness :
  In Sample.chicken
     (found (searchFoods ("grilled" ++ " " ++ "breast") Sample.empty_db))
  <-> In Sample.chicken (found (searchFoods "grilled" Sample.empty_db))
      /\ In Sample.chicken (found (searchFoods "breast" Sample.empty_db)).
Proof.
  apply (searchFoods_joined "grilled" "breast" Sample.empty_db Sample.chicken);
    reflexivity.
Defined.

Lemma searchFoods_same_words_witness :
  searchFoods "breast chicken breast" Sample.empty_db
  = searchFoods "Chicken  breast" Sample.empty_db.
Proof.
  apply searchFoods_same_words; [reflexivity | reflexivity |].
  intros w. vm_compute. tauto.
Defined.

Lemma searchFoods_name_case_witness :
  In Sample.chicken (found (searchFoods "chicken" Sample.empty_db))
  <-> In (Food.mk "f9" "GRILLED CHICKEN BREAST" 1 2 3 4)
         (found (searchFoods "chicken"
                   {| foods := [Food.mk "f9" "GRILLED CHICKEN BREAST" 1 2 3 4];
                      diary_entries := []; observers := [] |})).
Proof.
  apply searchFoods_name_case;
    [reflexivity | left; reflexivity | left; reflexivity].
Defined.

Lemma searchFoods_percent_query_witness :
  searchFoods "% %%" Sample.empty_db = Resolved (foods Sample.empty_db).
Proof. apply searchFoods_percent_query; reflexivity. Defined.

(* ================================================================== *)
(** ** The reactive query facade *)

Lemma satisfies_date (d : string) (e : DiaryEntry.t) :
  satisfies (observeDiaryEntriesForDate d) e = String.eqb (DiaryEntry.date e) d.
Proof. unfold observeDiaryEntriesForDate, observe, satisfies. simpl. apply andb_true_r. Qed.

Lemma fetch_date (d : string) (entries : list DiaryEntry.t) :
  fetch (observeDiaryEntriesForDate d) entries = on_date d entries.
Proof. apply filter_ext. intros e. apply satisfies_date. Qed.

Lemma observeDiaryEntriesForDate_injective (d d' : string) :
  observeDiaryEntriesForDate d = observeDiaryEntriesForDate d' -> d = d'.
Proof. intros Heq. injection Heq as Heq. exact Heq. Qed.

Lemma on_date_In (d : string) (entries : list DiaryEntry.t) (e : DiaryEntry.t) :
  In e (on_date d entries) -> DiaryEntry.date e = d.
Proof.
  unfold on_date. intros He. apply filter_In in He as [_ He].
  now apply String.eqb_eq.
Qed.

Section Quiet.

Variable q : list Q.Clause.

(** A commit none of whose affected records matches the query leaves the
    query's result as it was. *)
Lemma quiet_create (e : DiaryEntry.t) (entries : list DiaryEntry.t) :
  existsb (satisfies q) [e] = false ->
  fetch q (entries ++ [e]) = fetch q entries.
Proof.
  simpl. rewrite orb_false_r. intros He. unfold fetch.
  rewrite filter_app. simpl. rewrite He. apply app_nil_r.
Qed.

Lemma quiet_update (i : string) (change : DiaryEntry.t -> DiaryEntry.t)
  (entries : list DiaryEntry.t) :
  existsb (satisfies q)
          (filter (has_id i) entries ++ map change (filter (has_id i) entries))
  = false ->
  fetch q (map (fun e => if has_id i e then change e else e) entries)
  = fetch q entries.
Proof.
  rewrite existsb_app. intros H. apply orb_false_iff in H as [Hold Hnew].
  unfold fetch. induction entries as [|e l IH]; [reflexivity|].
  simpl in *. destruct (has_id i e).
  - simpl in Hold, Hnew.
    apply orb_false_iff in Hold as [He Hold].
    apply orb_false_iff in Hnew as [He' Hnew].
    rewrite He, He'. now apply IH.
  - rewrite (IH Hold Hnew). reflexivity.
Qed.

Lemma quiet_destroy (i : string) (entries : list DiaryEntry.t) :
  existsb (satisfies q) (filter (has_id i) entries) = false ->
  fetch q (filter (fun e => negb (has_id i e)) entries) = fetch q entries.
Proof.
  unfold fetch. induction entries as [|e l IH]; [reflexivity|].
  simpl. destruct (has_id i e); simpl.
  - intros H. apply orb_false_iff in H as [He Hl]. rewrite He. now apply IH.
  - intros Hl. rewrite (IH Hl). reflexivity.
Qed.

Lemma step_quiet (op : Op) (db : Database) :
  existsb (satisfies q) (affected_by op db) = false ->
  fetch q (diary_entries (step db op)) = fetch q (diary_entries db).
Proof.
  destruct op as [d|options env|i change|i|i change]; simpl.
  - reflexivity.
  - rewrite logFoodToDiary_unfold.
    destruct (write_succeeds env); [apply quiet_create | reflexivity].
  - apply quiet_update.
  - apply quiet_destroy.
  - reflexivity.
Qed.

End Quiet.

Lemma notify_nothing (entries' : list DiaryEntry.t) (l : list Subscriber) :
  map (notify [] entries') l = l.
Proof. induction l as [|s l IH]; simpl; [reflexivity | now rewrite IH]. Qed.

(** What an event does to the subscribers: each one already there is
    notified of the affected records, and the new ones join. *)
Lemma step_observers (op : Op) (db : Database) :
  observers (step db op)
  = map (notify (affected_by op db) (diary_entries (step db op)))
        (observers db)
    ++ joining op db.
Proof.
  destruct op as [d|options env|i change|i|i change]; simpl.
  - now rewrite notify_nothing.
  - rewrite logFoodToDiary_unfold.
    destruct (write_succeeds env); simpl.
    + now rewrite app_nil_r.
    + now rewrite notify_nothing, app_nil_r.
  - now rewrite app_nil_r.
  - now rewrite app_nil_r.
  - now rewrite notify_nothing, app_nil_r.
Qed.

Lemma step_subscriber (op : Op) (db : Database) (i : nat) (s : Subscriber) :
  nth_error (observers db) i = Some s ->
  nth_error (observers (step db op)) i
  = Some (notify (affected_by op db) (diary_entries (step db op)) s).
Proof.
  intros Hs. rewrite step_observers.
  rewrite nth_error_app1.
  - now rewrite nth_error_map, Hs.
  - rewrite length_map. apply nth_error_Some. now rewrite Hs.
Qed.

Lemma notify_exact (affected entries' : list DiaryEntry.t) (s : Subscriber) :
  exact_for_date s -> exact_for_date (notify affected entries' s).
Proof.
  intros [d [Hw Hsnaps]]. exists d. unfold notify.
  destruct (existsb (satisfies (watching s)) affected); simpl.
  - split; [exact Hw|]. intros snap e Hsnap He.
    apply in_app_or in Hsnap as [Hsnap|[Hsnap|[]]].
    + exact (Hsnaps snap e Hsnap He).
    + subst snap. rewrite Hw, fetch_date in He. exact (on_date_In _ _ _ He).
  - split; assumption.
Qed.

Lemma step_exact (op : Op) (db : Database) :
  Forall exact_for_date (observers db) ->
  Forall exact_for_date (observers (step db op)).
Proof.
  intros Hdb. rewrite step_observers. apply Forall_app. split.
  - apply Forall_map. eapply Forall_impl; [|exact Hdb].
    intros s. apply notify_exact.
  - destruct op; simpl; constructor; [|constructor].
    exists d. split; [reflexivity|]. simpl.
    intros snap e [Hsnap|[]] He. subst snap.
    rewrite fetch_date in He. exact (on_date_In _ _ _ He).
Qed.

Lemma run_exact (ops : list Op) :
  forall db,
    Forall exact_for_date (observers db) ->
    Forall exact_for_date (observers (run ops db)).
Proof.
  induction ops as [|op ops IH]; intros db Hdb; [exact Hdb|].
  unfold run. simpl. apply IH, step_exact, Hdb.
Qed.

(** Along any history that starts without subscribers, a snapshot delivered
    to a subscriber of date [d] holds entries of date [d] only. *)
Lemma snapshots_exact (d : string) (ops : list Op) (db0 : Database)
  (s : Subscriber) (snap : list DiaryEntry.t) (e : DiaryEntry.t) :
  observers db0 = [] ->
  In s (observers (run ops db0)) ->
  watching s = observeDiaryEntriesForDate d ->
  In snap (received s) -> In e snap ->
  DiaryEntry.date e = d.
Proof.
  intros H0 Hs Hw Hsnap He.
  assert (Hall : Forall exact_for_date (observers (run ops db0))).
  { apply run_exact. rewrite H0. constructor. }
  rewrite Forall_forall in Hall. destruct (Hall s Hs) as [d' [Hw' Hsnaps]].
  rewrite Hw in Hw'. apply observeDiaryEntriesForDate_injective in Hw'.
  subst d'. exact (Hsnaps snap e Hsnap He).
Qed.

(** An event that changes what the query matches is delivered. *)
Lemma step_delivers (d : string) (op : Op) (db : Database) (i : nat)
  (s : Subscriber) :
  nth_error (observers db) i = Some s ->
  watching s = observeDiaryEntriesForDate d ->
  exists s',
    nth_error (observers (step db op)) i = Some s'
    /\ watching s' = watching s
    /\ (received s' = received s
        \/ received s' = received s ++ [on_date d (diary_entries (step db op))])
    /\ (on_date d (diary_entries (step db op)) <> on_date d (diary_entries db) ->
        received s' = received s ++ [on_date d (diary_entries (step db op))]).
Proof.
  intros Hs Hw.
  exists (notify (affected_by op db) (diary_entries (step db op)) s).
  split; [now apply step_subscriber|].
  unfold notify.
  destruct (existsb (satisfies (watching s)) (affected_by op db)) eqn:Haff;
    simpl.
  - rewrite Hw, fetch_date. repeat split; auto.
  - repeat split; auto. intros Hchanged. exfalso. apply Hchanged.
    rewrite <- !fetch_date, <- Hw. now apply step_quiet.
Qed.

(** Logging for another date is not delivered. *)
Lemma log_other_date_silent (d : string) (options : Options) (env : Env)
  (db : Database) (i : nat) (s : Subscriber) :
  nth_error (observers db) i = Some s ->
  watching s = observeDiaryEntriesForDate d ->
  date options <> d ->
  nth_error (observers (snd (logFoodToDiary options env db))) i = Some s.
Proof.
  intros Hs Hw Hd.
  change (snd (logFoodToDiary options env db)) with (step db (Log options env)).
  rewrite (step_subscriber _ _ _ _ Hs). f_equal.
  unfold notify. rewrite Hw. simpl affected_by.
  destruct (write_succeeds env); [|reflexivity].
  cbn [existsb]. rewrite satisfies_date. cbn [new_entry DiaryEntry.date].
  apply String.eqb_neq in Hd. now rewrite Hd.
Qed.

(** C6.  Subscribing to observeDiaryEntriesForDate(d) delivers at once the
    diary entries whose date is the string [d].  Whatever then happens to
    the store (an entry logged, changed or deleted, a subscriber joining, a
    catalog change), the subscriber either receives nothing or receives the
    complete current list of entries of date [d], and it does receive it
    whenever that list has changed.  Along any history no delivered snapshot
    holds an entry of another date: none dated "2024-01-5" or "2024-01-16"
    reaches a subscriber of "2024-01-15".  Logging an entry for another
    date delivers nothing to the subscriber. *)
Theorem observeDiaryEntriesForDate_live (d : string) :
  (forall db,
      observers (subscribe (observeDiaryEntriesForDate d) db)
      = observers db
        ++ [{| watching := observeDiaryEntriesForDate d;
               received := [on_date d (diary_entries db)] |}])
  /\ (forall op db i s,
         nth_error (observers db) i = Some s ->
         watching s = observeDiaryEntriesForDate d ->
         exists s',
           nth_error (observers (step db op)) i = Some s'
           /\ watching s' = watching s
           /\ (received s' = received s
               \/ received s'
                  = received s ++ [on_date d (diary_entries (step db op))])
           /\ (on_date d (diary_entries (step db op))
               <> on_date d (diary_entries db) ->
               received s'
               = received s ++ [on_date d (diary_entries (step db op))]))
  /\ (forall ops db0 s snap e,
         observers db0 = [] ->
         In s (observers (run ops db0)) ->
         watching s = observeDiaryEntriesForDate d ->
         In snap (received s) -> In e snap ->
         DiaryEntry.date e = d)
  /\ (forall ops db0 s snap e,
         observers db0 = [] ->
         In s (observers (run ops db0)) ->
         watching s = observeDiaryEntriesForDate "2024-01-15" ->
         In snap (received s) -> In e snap ->
         DiaryEntry.date e <> "2024-01-5"
         /\ DiaryEntry.date e <> "2024-01-16")
  /\ (forall options env db i s,
         nth_error (observers db) i = Some s ->
         watching s = observeDiaryEntriesForDate d ->
         date options <> d ->
         nth_error (observers (snd (logFoodToDiary options env db))) i
         = Some s).
Proof.
  split; [|split; [|split; [|split]]].
  - intros db. unfold subscribe. simpl. now rewrite fetch_date.
  - intros op db i s. apply step_delivers.
  - intros ops db0 s snap e. apply snapshots_exact.
  - intros ops db0 s snap e H0 Hs Hw Hsnap He.
    rewrite (snapshots_exact _ ops db0 s snap e H0 Hs Hw Hsnap He).
    split; discriminate.
  - intros options env db i s. apply log_other_date_silent.
Qed.

Lemma observeDiaryEntriesForDate_live_witness :
  observers Sample.watched_db = [Sample.watcher]
  /\ (exists s',
         nth_error
           (observers
              (step Sample.watched_db (Log Sample.two_servings Sample.env1)))
           0
         = Some s'
         /\ received s'
            = [[]; [new_entry Sample.two_servings Sample.env1]])
  /\ (forall snap e,
         In snap
            (received
               (notify [new_entry Sample.two_servings Sample.env1]
                  [new_entry Sample.two_servings Sample.env1] Sample.watcher)) ->
         In e snap -> DiaryEntry.date e = "2024-01-15")
  /\ nth_error
       (observers
          (snd (logFoodToDiary Sample.next_day Sample.env2 Sample.watched_db)))
       0
     = Some Sample.watcher.
Proof.
  destruct (observeDiaryEntriesForDate_live "2024-01-15")
    as [Hsub [Hdeliver [Hexact [_ Hsilent]]]].
  split; [|split; [|split]].
  - apply (Hsub Sample.empty_db).
  - destruct (Hdeliver (Log Sample.two_servings Sample.env1)
                Sample.watched_db 0 Sample.watcher eq_refl eq_refl)
      as [s' [Hs' [_ [_ Hchanged]]]].
    exists s'. split; [exact Hs'|].
    apply Hchanged. vm_compute. discriminate.
  - intros snap e.
    apply (Hexact [Subscribe "2024-01-15";
                   Log Sample.two_servings Sample.env1]
             Sample.empty_db); [reflexivity | left; reflexivity | reflexivity].
  - apply (Hsilent Sample.next_day Sample.env2 Sample.watched_db 0
             Sample.watcher); [reflexivity | reflexivity |].
    vm_compute. discriminate.
Defined.

(* ================================================================== *)
(** ** More on logging and live queries *)

Lemma run_cons (op : Op) (ops : list Op) (db : Database) :
  run (op :: ops) db = run ops (step db op).
Proof. reflexivity. Qed.

(** X6.  A batch of logFoodToDiary calls appends to the diary one entry for
    each call whose write goes through, in call order, keeps every entry
    that was there, and leaves the catalog as it was. *)
Theorem logs_accumulate (calls : list (Options * Env)) (db : Database) :
  diary_entries (run (log_all calls) db) = diary_entries db ++ logged calls
  /\ foods (run (log_all calls) db) = foods db.
Proof.
  revert db. induction calls as [|[options env] calls IH]; intros db.
  - unfold logged. simpl. now rewrite app_nil_r.
  - unfold log_all. simpl map. rewrite run_cons.
    destruct (IH (step db (Log options env))) as [Hentries Hfoods].
    unfold log_all in Hentries, Hfoods. rewrite Hentries, Hfoods.
    unfold logged. simpl. rewrite logFoodToDiary_unfold.
    destruct (write_succeeds env); simpl.
    + now rewrite <- app_assoc.
    + split; reflexivity.
Qed.

(** X7.  When a call for date [d] goes through, every subscriber watching
    [d] receives one more snapshot: the entries of date [d] that were in
    the store, followed by the new entry. *)
Theorem log_same_date_delivered (d : string) (options : Options) (env : Env)
  (db : Database) (i : nat) (s : Subscriber) :
  nth_error (observers db) i = Some s ->
  watching s = observeDiaryEntriesForDate d ->
  date options = d ->
  write_succeeds env = true ->
  nth_error (observers (snd (logFoodToDiary options env db))) i
  = Some {| watching := watching s;
            received := received s
                        ++ [on_date d (diary_entries db)
                            ++ [new_entry options env]] |}.
Proof.
  intros Hs Hw Hd Hok.
  change (snd (logFoodToDiary options env db)) with (step db (Log options env)).
  rewrite (step_subscriber _ _ _ _ Hs). f_equal.
  assert (Hdate : String.eqb (DiaryEntry.date (new_entry options env)) d = true).
  { apply String.eqb_eq. exact Hd. }
  unfold notify. rewrite Hw. cbn [affected_by]. rewrite Hok.
  cbn [existsb]. rewrite satisfies_date, Hdate. cbn [orb].
  rewrite fetch_date. cbn [step]. rewrite (logFoodToDiary_entries _ _ _ Hok).
  unfold on_date. rewrite filter_app. cbn [filter]. now rewrite Hdate.
Qed.

Lemma log_same_date_delivered_witness :
  nth_error
    (observers
       (snd (logFoodToDiary Sample.two_servings Sample.env1 Sample.watched_db)))
    0
  = Some {| watching := watching Sample.watcher;
            received := received Sample.watcher
                        ++ [on_date "2024-01-15"
                              (diary_entries Sample.watched_db)
                            ++ [new_entry Sample.two_servings Sample.env1]] |}.
Proof.
  apply (log_same_date_delivered "2024-01-15" Sample.two_servings Sample.env1
           Sample.watched_db 0 Sample.watcher); reflexivity.
Defined.

Lemma notify_up_to_date (op : Op) (db : Database) (s : Subscriber) :
  up_to_date db s ->
  up_to_date (step db op)
    (notify (affected_by op db) (diary_entries (step db op)) s).
Proof.
  unfold up_to_date, notify. intros Hs.
  destruct (existsb (satisfies (watching s)) (affected_by op db)) eqn:Haff;
    simpl.
  - apply last_last.
  - rewrite Hs. symmetry. now apply step_quiet.
Qed.

Lemma step_up_to_date (op : Op) (db : Database) :
  Forall (up_to_date db) (observers db) ->
  Forall (up_to_date (step db op)) (observers (step db op)).
Proof.
  intros Hdb. rewrite step_observers. apply Forall_app. split.
  - apply Forall_map. eapply Forall_impl; [|exact Hdb].
    intros s. apply notify_up_to_date.
  - destruct op; simpl; constructor; [|constructor]. reflexivity.
Qed.

(** X8.  Along any history of the store (entries logged, changed, deleted,
    subscribers joining, catalog changes) that starts without subscribers,
    the newest snapshot of every subscriber is what its query matches in
    the store at that moment: no subscriber is left with a stale list. *)
Theorem subscribers_up_to_date (ops : list Op) (db0 : Database)
  (s : Subscriber) :
  observers db0 = [] ->
  In s (observers (run ops db0)) ->
  up_to_date (run ops db0) s.
Proof.
  intros H0.
  assert (Hall : forall ops db,
             Forall (up_to_date db) (observers db) ->
             Forall (up_to_date (run ops db)) (observers (run ops db))).
  { clear. induction ops as [|op ops IH]; intros db Hdb; [exact Hdb|].
    rewrite run_cons. apply IH, step_up_to_date, Hdb. }
  specialize (Hall ops db0). rewrite H0 in Hall.
  specialize (Hall (Forall_nil _)). rewrite Forall_forall in Hall.
  apply Hall.
Qed.

Lemma subscribers_up_to_date_witness :
  up_to_date
    (run [Subscribe "2024-01-15"; Log Sample.two_servings Sample.env1;
          Log Sample.next_day Sample.env2; DestroyEntry "e1"]
       Sample.empty_db)
    {| watching := observeDiaryEntriesForDate "2024-01-15";
       received := [[]; [new_entry Sample.two_servings Sample.env1]; []] |}.
Proof.
  apply subscribers_up_to_date; [reflexivity | left; reflexivity].
Defined.

(* ================================================================== *)
(** ** The root layout: start-up *)

Section StartUp.

Import RootLayout.

Context {A : AppStore}.

(** X9.  The three conditions the component writes out separately agree on
    every state: the navigation effect returns early exactly when the
    loading overlay is shown, and the splash screen is hidden on layout
    exactly when the overlay is not shown. *)
Theorem overlay_navigation_splash_agree (v : Screen A) :
  navigation_waits v = showLoading v
  /\ hides_splash v = negb (showLoading v).
Proof.
  split; [reflexivity|].
  unfold hides_splash, showLoading.
  destruct (fontsLoaded v), (fontError v), (appInitialized v),
    (isLoading A (store v)); reflexivity.
Qed.

(** X10.  However seeding and the user lookup end, initializeApp leaves
    the loading flag cleared and appInitialized set, so the effect does not
    start it again; and when it was started (the fonts had settled), the
    overlay is gone afterwards, the splash screen may be hidden and the
    navigation effect no longer returns early.  All that is asked of the
    store is that setLoading sets the loading flag. *)
Theorem initializeApp_finishes (seeding : Settled unit)
  (lookup : Settled (option (User A))) (v : Screen A) :
  (forall b s, isLoading A (setLoading A b s) = b) ->
  isLoading A (store (initializeApp seeding lookup v)) = false
  /\ appInitialized (initializeApp seeding lookup v) = true
  /\ should_initialize (initializeApp seeding lookup v) = false
  /\ (should_initialize v = true ->
      showLoading (initializeApp seeding lookup v) = false
      /\ hides_splash (initializeApp seeding lookup v) = true
      /\ navigation_waits (initializeApp seeding lookup v) = false).
Proof.
  intros Hset.
  assert (Hload : isLoading A (store (initializeApp seeding lookup v)) = false).
  { unfold initializeApp. simpl. apply Hset. }
  split; [exact Hload|]. split; [reflexivity|]. split.
  - unfold should_initialize. simpl. apply andb_false_r.
  - intros Hstart. unfold should_initialize in Hstart.
    apply andb_true_iff in Hstart as [Hfonts _].
    unfold showLoading, hides_splash, navigation_waits. rewrite Hload.
    simpl. rewrite Hfonts.
    destruct (fontsLoaded v), (fontError v); try discriminate; repeat split.
Qed.

(** X11.  After initializeApp the onboarding flag is set when a user was
    found, cleared when the lookup threw, and as it was when no user
    exists; how seeding ended plays no part. *)
Theorem initializeApp_onboarding (seeding : Settled unit)
  (lookup : Settled (option (User A))) (v : Screen A) :
  SetterLaws A ->
  onboardingComplete A (store (initializeApp seeding lookup v))
  = match lookup with
    | Fulfilled (Some _) => true
    | Fulfilled None => onboardingComplete A (store v)
    | Thrown => false
    end.
Proof.
  intros Hlaws. unfold initializeApp. simpl.
  rewrite (onboarding_setLoading A Hlaws).
  destruct lookup as [[u|]|]; simpl.
  - destruct (onboardingComplete A (store v)) eqn:Hseen; simpl.
    + now rewrite (onboarding_setCurrentUser A Hlaws),
        (onboarding_setLoading A Hlaws).
    + apply (onboarding_set A Hlaws).
  - now rewrite (onboarding_setCurrentUser A Hlaws),
      (onboarding_setLoading A Hlaws).
  - apply (onboarding_set A Hlaws).
Qed.

(** X12.  Right after an initialization that found a user, the navigation
    effect does not send the router to the onboarding screen; right after
    one whose user lookup threw, it does not send it to the main tabs. *)
Theorem initializeApp_then_destination (seeding : Settled unit)
  (lookup : Settled (option (User A))) (v : Screen A) :
  SetterLaws A ->
  ((exists u, lookup = Fulfilled (Some u)) ->
   destination (initializeApp seeding lookup v) <> "/onboarding")
  /\ (lookup = Thrown ->
      destination (initializeApp seeding lookup v) <> "/(tabs)").
Proof.
  intros Hlaws.
  pose proof (initializeApp_onboarding seeding lookup v Hlaws) as Honb.
  split.
  - intros [u Hu]. subst lookup. unfold destination. rewrite Honb.
    destruct (isAuthenticated A (store (initializeApp seeding (Fulfilled (Some u)) v)));
      simpl; discriminate.
  - intros Hthrown. subst lookup. unfold destination. rewrite Honb.
    destruct (isAuthenticated A (store (initializeApp seeding Thrown v)));
      simpl; discriminate.
Qed.

(** X13.  While the overlay is shown its text tells why: "Loading fonts..."
    only when the fonts have neither loaded nor failed, "Initializing
    app..." only when initialization has not finished, and "Starting
    FitNext..." only when the store's loading flag is set. *)
Theorem loading_message_cause (v : Screen A) :
  showLoading v = true ->
  (loading_message v = "Loading fonts..." ->
   fontsLoaded v = false /\ fontError v = false)
  /\ (loading_message v = "Initializing app..." ->
      appInitialized v = false /\ fontsLoaded v = true)
  /\ (loading_message v = "Starting FitNext..." ->
      isLoading A (store v) = true /\ appInitialized v = true).
Proof.
  unfold showLoading, loading_message. intros Hshown.
  destruct (fontsLoaded v), (fontError v), (appInitialized v),
    (isLoading A (store v)); simpl in *;
    (split; [|split]); intros Hmsg; try (split; reflexivity); discriminate.
Qed.

End StartUp.

Lemma initializeApp_finishes_witness :
  RootLayout.isLoading RootLayout.plain
    (RootLayout.store
       (RootLayout.initializeApp RootLayout.Thrown RootLayout.Thrown
          RootLayout.fresh))
  = false
  /\ RootLayout.showLoading
       (RootLayout.initializeApp RootLayout.Thrown RootLayout.Thrown
          RootLayout.fresh)
     = false.
Proof.
  destruct (initializeApp_finishes (A := RootLayout.plain)
              RootLayout.Thrown RootLayout.Thrown RootLayout.fresh)
    as [Hload [_ [_ Hshown]]].
  - reflexivity.
  - split; [exact Hload|]. apply Hshown. reflexivity.
Defined.

Lemma initializeApp_onboarding_witness :
  RootLayout.onboardingComplete RootLayout.plain
    (RootLayout.store
       (@RootLayout.initializeApp RootLayout.plain (RootLayout.Fulfilled tt)
          (RootLayout.Fulfilled (Some "u1")) RootLayout.fresh))
  = true.
Proof.
  apply (initializeApp_onboarding (A := RootLayout.plain)
           (RootLayout.Fulfilled tt) (RootLayout.Fulfilled (Some "u1"))
           RootLayout.fresh).
  constructor; reflexivity.
Defined.

Lemma initializeApp_then_destination_witness :
  RootLayout.destination
    (RootLayout.initializeApp (RootLayout.Fulfilled tt) RootLayout.Thrown
       RootLayout.fresh)
  = "/(auth)/CreateProfileScreen"
  /\ (RootLayout.destination
        (RootLayout.initializeApp (RootLayout.Fulfilled tt) RootLayout.Thrown
           RootLayout.fresh)
      = "/(tabs)" -> False).
Proof.
  split; [reflexivity|].
  apply (initializeApp_then_destination (A := RootLayout.plain)
           (RootLayout.Fulfilled tt) RootLayout.Thrown RootLayout.fresh);
    [constructor; reflexivity | reflexivity].
Defined.

Lemma loading_message_cause_witness :
  RootLayout.loading_message RootLayout.fresh = "Initializing app..."
  /\ RootLayout.appInitialized RootLayout.fresh = false
  /\ RootLayout.fontsLoaded RootLayout.fresh = true.
Proof.
  split; [reflexivity|].
  apply (loading_message_cause (A := RootLayout.plain) RootLayout.fresh);
    reflexivity.
Defined.
